(** * Pixella: session memory, retrieval index, prompt assembly and throttle

    A shallow embedding of [memory.py], [chromadb_rag.py] and [chatbot.py].
    Python objects become records, the SQLite database and the directory of
    JSON session files become explicit stores carried by the manager, and
    every method takes the manager and returns its result with the updated
    manager.

    Conventions of the model:
    - strings are Python [str] restricted to the code points below 256,
      one character of a Rocq string per code point;
    - a [datetime] object is represented by the two renderings the program
      reads from it ([isoformat()] and [strftime('%Y%m%d_%H%M%S')]);
      successive calls of [datetime.now()] read successive entries of a
      clock carried by the manager;
    - storage is reliable: a database statement or a file operation fails
      only for a reason visible in the store or in the file name (a missing
      or empty file, a name the file system cannot create, a primary-key
      conflict), never for an I/O error; the file system is a
      case-sensitive POSIX one and the storage directory holds session
      files and no sub-directories;
    - [json.dumps] followed by [json.loads] is the identity on the
      dictionaries stored, so the stores hold the dictionaries themselves;
    - readings of [time.time()] and the arithmetic on them are binary64,
      as in Python; the throttle is also read over the rationals, where
      the statements about spacing are made. *)

From Corelib Require Import PrimFloat.
From Corelib Require FloatOps SpecFloat.
From Stdlib Require Import ZArith QArith Qabs Lqa List Bool Ascii String.
From stdpp Require Import gmap strings list fin_maps sorting pretty.

Local Open Scope string_scope.
Local Open Scope list_scope.
Local Open Scope Z_scope.

(** ** Python helpers *)

(** Truth value of a [str]: the empty string is falsy. *)
Definition truthy (s : string) : bool :=
  match s with
  | EmptyString => false
  | String _ _ => true
  end.

(** Truth value of an [Optional[str]]. *)
Definition truthy_opt (o : option string) : bool :=
  match o with
  | Some s => truthy s
  | None => false
  end.

(** [a or b] on [Optional[str]] values. *)
Definition py_or (a b : option string) : option string :=
  if truthy_opt a then a else b.

(** Characters removed by [str.strip()]: the code points below 256 for
    which [str.isspace] holds (TAB to CR, FS to US, space, NEL, NBSP). *)
Definition is_space (c : ascii) : bool :=
  let n := nat_of_ascii c in
  ((9 <=? n)%nat && (n <=? 13)%nat) || ((28 <=? n)%nat && (n <=? 32)%nat)
  || (n =? 133)%nat || (n =? 160)%nat.

Fixpoint lstrip (s : string) : string :=
  match s with
  | String c t => if is_space c then lstrip t else s
  | EmptyString => EmptyString
  end.

(** [s.strip()] is empty exactly when stripping from the left already
    leaves nothing, which is all the callers test. *)
Definition strip_is_empty (s : string) : bool := negb (truthy (lstrip s)).

(** [l[start:]] for a Python list and a possibly negative [start]. *)
Definition py_slice_from {A} (start : Z) (l : list A) : list A :=
  let n := Z.of_nat (length l) in
  let s := if start <? 0 then Z.max 0 (start + n) else Z.min start n in
  drop (Z.to_nat s) l.

(** ** memory.py: data model *)

Module Memory.

Definition Dict := list (string * string).

Record datetime := mkDatetime {
  isoformat : string;
  strftime_stamp : string
}.

Record Message := mkMessage {
  role : string;
  content : string;
  timestamp : string;
  metadata : Dict
}.

Record Session := mkSession {
  session_id : string;
  user_name : string;
  user_persona : string;
  model : string;
  created_at : string;
  updated_at : string;
  messages : list Message;
  context : Dict
}.

(** *** The SQLite store

    Table [sessions] has [session_id] as its primary key, so it is a finite
    map from the key to the remaining columns.  Table [messages] is a list of
    rows with an AUTOINCREMENT [id]; [sqlite_sequence] is the largest id ever
    handed out. *)

Record SessionRow := mkSessionRow {
  col_user_name : string;
  col_user_persona : string;
  col_model : string;
  col_created_at : string;
  col_updated_at : string;
  col_context : Dict
}.

Record MessageRow := mkMessageRow {
  col_id : Z;
  col_session_id : string;
  col_role : string;
  col_content : string;
  col_timestamp : string;
  col_metadata : Dict
}.

Record Database := mkDatabase {
  sessions : gmap string SessionRow;
  messages_table : list MessageRow;
  sqlite_sequence : Z
}.

(** *** The JSON-file store

    One file per session.  A file is either empty (what [open(path, 'w')]
    leaves before anything is written; [json.load] raises on it) or holds a
    serialised session. *)

Inductive FileContent :=
| EmptyFile
| SessionJson (data : Session).

Definition file_path (sid : string) : string := sid +:+ ".json".

(** *** The manager

    [use_db] and [current_session] are the fields of the Python object;
    [db] and [files] are the contents of the storage its paths point to;
    [clock], [ticks] and [config] are the process environment it reads. *)

Record MemoryManager := mkMemoryManager {
  clock : nat -> datetime;
  ticks : nat;
  config : gmap string string;
  use_db : bool;
  db : Database;
  files : gmap string FileContent;
  current_session : option Session
}.

Definition set_ticks (n : nat) (m : MemoryManager) : MemoryManager :=
  mkMemoryManager (clock m) n (config m) (use_db m) (db m) (files m)
    (current_session m).

Definition set_db (d : Database) (m : MemoryManager) : MemoryManager :=
  mkMemoryManager (clock m) (ticks m) (config m) (use_db m) d (files m)
    (current_session m).

Definition set_files (f : gmap string FileContent) (m : MemoryManager)
  : MemoryManager :=
  mkMemoryManager (clock m) (ticks m) (config m) (use_db m) (db m) f
    (current_session m).

Definition set_current_session (c : option Session) (m : MemoryManager)
  : MemoryManager :=
  mkMemoryManager (clock m) (ticks m) (config m) (use_db m) (db m) (files m) c.

(** [datetime.now()]: read the clock and advance it. *)
Definition datetime_now (m : MemoryManager) : datetime * MemoryManager :=
  (clock m (ticks m), set_ticks (S (ticks m)) m).

(** *** SQLite statements *)

(** [INSERT OR REPLACE INTO sessions ... VALUES (...)]. *)
Definition insert_or_replace_session (sid : string) (row : SessionRow)
  (d : Database) : Database :=
  mkDatabase (<[sid := row]> (sessions d)) (messages_table d)
    (sqlite_sequence d).

(** [INSERT INTO messages (session_id, role, content, timestamp, metadata)]:
    the new row gets the next id of the AUTOINCREMENT sequence. *)
Definition insert_message (sid : string) (msg : Message) (d : Database)
  : Database :=
  let new_id := sqlite_sequence d + 1 in
  mkDatabase (sessions d)
    (messages_table d ++
       [mkMessageRow new_id sid (role msg) (content msg) (timestamp msg)
          (metadata msg)])
    new_id.

Definition with_updated_at (t : string) (row : SessionRow) : SessionRow :=
  mkSessionRow (col_user_name row) (col_user_persona row) (col_model row)
    (col_created_at row) t (col_context row).

(** [UPDATE sessions SET updated_at = ? WHERE session_id = ?]. *)
Definition update_updated_at (t : string) (sid : string) (d : Database)
  : Database :=
  mkDatabase (alter (with_updated_at t) sid (sessions d)) (messages_table d)
    (sqlite_sequence d).

(** [DELETE FROM messages WHERE session_id = ?]. *)
Definition delete_messages (sid : string) (d : Database) : Database :=
  mkDatabase (sessions d)
    (filter (fun r => col_session_id r <> sid) (messages_table d))
    (sqlite_sequence d).

Fixpoint insert_by_id (r : MessageRow) (l : list MessageRow)
  : list MessageRow :=
  match l with
  | [] => [r]
  | x :: t => if col_id r <? col_id x then r :: l else x :: insert_by_id r t
  end.

(** [ORDER BY id]. *)
Definition order_by_id (l : list MessageRow) : list MessageRow :=
  foldr insert_by_id [] l.

(** [SELECT ... FROM messages WHERE session_id = ? ORDER BY id]. *)
Definition select_messages (sid : string) (d : Database) : list MessageRow :=
  order_by_id (filter (fun r => col_session_id r = sid) (messages_table d)).

(** [UPDATE sessions SET session_id = ? WHERE session_id = ?]: [None] is the
    primary-key conflict raised when another row already has the new key. *)
Definition update_sessions_id (old new : string)
  (tbl : gmap string SessionRow) : option (gmap string SessionRow) :=
  match tbl !! old with
  | None => Some tbl
  | Some row =>
      if decide (old = new) then Some tbl
      else match tbl !! new with
           | Some _ => None
           | None => Some (<[new := row]> (delete old tbl))
           end
  end.

Definition with_col_session_id (sid : string) (r : MessageRow) : MessageRow :=
  mkMessageRow (col_id r) sid (col_role r) (col_content r) (col_timestamp r)
    (col_metadata r).

(** [UPDATE messages SET session_id = ? WHERE session_id = ?]. *)
Definition update_messages_id (old new : string) (rows : list MessageRow)
  : list MessageRow :=
  map (fun r => if decide (col_session_id r = old)
                then with_col_session_id new r else r) rows.

(** *** File operations *)

Fixpoint has_slash (s : string) : bool :=
  match s with
  | EmptyString => false
  | String c t => Ascii.eqb c "/" || has_slash t
  end.

Fixpoint has_nul (s : string) : bool :=
  match s with
  | EmptyString => false
  | String c t => Ascii.eqb c "000" || has_nul t
  end.

(** The length in bytes of the UTF-8 encoding of a name: two bytes for a
    code point from 128 on. *)
Fixpoint utf8_length (s : string) : nat :=
  match s with
  | EmptyString => 0
  | String c t =>
      ((if (nat_of_ascii c <? 128)%nat then 1 else 2) + utf8_length t)%nat
  end.

(** A name the file system can create in the storage directory: no path
    separator, no NUL character, at most 255 bytes. *)
Definition plain_name (name : string) : bool :=
  negb (has_slash name) && negb (has_nul name)
  && (utf8_length name <=? 255)%nat.

(** The text before the first path separator, when there is one. *)
Fixpoint first_directory (s : string) : option string :=
  match s with
  | EmptyString => None
  | String c t =>
      if Ascii.eqb c "/" then Some EmptyString
      else String c <$> first_directory t
  end.

(** A name that leads through a sub-directory of the storage directory
    (its first component is a name other than [.] and [..] followed by a
    separator).  The storage directory has no sub-directories, so nothing
    can be opened, created or renamed under such a name. *)
Definition in_missing_directory (name : string) : bool :=
  match first_directory name with
  | Some d =>
      negb (String.eqb d "" || String.eqb d "." || String.eqb d "..")
  | None => false
  end.

Inductive FileOp :=
| OpenW (path : string)                    (* open(path, 'w'): truncate *)
| JsonDump (path : string) (data : Session) (* json.dump(data, f) *)
| Rename (src dst : string).                (* Path.rename *)

(** Whether a file can be opened for writing, or be the target of a
    rename: it exists already, or its name can be created.  A name that
    starts with a separator, [./] or [../] addresses a file outside the
    storage directory or a stored file by another route; the map of files
    does not cover these, and the operation is refused like any other it
    cannot carry out.  Statements about created or renamed files are made
    for plain names and for names into a missing sub-directory. *)
Definition writable (path : string) (fs : gmap string FileContent) : bool :=
  bool_decide (is_Some (fs !! path)) || plain_name path.

(** One file operation; [None] when it raises.  [json.dump] writes into the
    file [open] has just truncated. *)
Definition apply_op (op : FileOp) (fs : gmap string FileContent)
  : option (gmap string FileContent) :=
  match op with
  | OpenW path =>
      if writable path fs then Some (<[path := EmptyFile]> fs) else None
  | JsonDump path data =>
      match fs !! path with
      | Some _ => Some (<[path := SessionJson data]> fs)
      | None => None
      end
  | Rename src dst =>
      match fs !! src with
      | Some c =>
          if writable dst fs then Some (<[dst := c]> (delete src fs))
          else None
      | None => None
      end
  end.

(** Run the operations in order and stop at the first one that raises; the
    boolean tells whether all of them ran. *)
Fixpoint run_ops (ops : list FileOp) (fs : gmap string FileContent)
  : gmap string FileContent * bool :=
  match ops with
  | [] => (fs, true)
  | op :: rest =>
      match apply_op op fs with
      | Some fs' => run_ops rest fs'
      | None => (fs, false)
      end
  end.

(** The file system after each operation of a run, in order. *)
Fixpoint trace_ops (ops : list FileOp) (fs : gmap string FileContent)
  : list (gmap string FileContent) :=
  match ops with
  | [] => []
  | op :: rest =>
      match apply_op op fs with
      | Some fs' => fs' :: trace_ops rest fs'
      | None => []
      end
  end.

(** ** memory.py: MemoryManager methods *)

Definition _save_session_to_db (session : Session) (m : MemoryManager)
  : MemoryManager :=
  set_db
    (insert_or_replace_session (session_id session)
       (mkSessionRow (user_name session) (user_persona session)
          (model session) (created_at session) (updated_at session)
          (context session))
       (db m)) m.

Definition save_file_ops (session : Session) : list FileOp :=
  [OpenW (file_path (session_id session));
   JsonDump (file_path (session_id session)) session].

Definition _save_session_to_file (session : Session) (m : MemoryManager)
  : MemoryManager :=
  set_files (fst (run_ops (save_file_ops session) (files m))) m.

Definition append_message (session : Session) (msg : Message) : Session :=
  mkSession (session_id session) (user_name session) (user_persona session)
    (model session) (created_at session) (updated_at session)
    (messages session ++ [msg]) (context session).

Definition with_messages (msgs : list Message) (session : Session) : Session :=
  mkSession (session_id session) (user_name session) (user_persona session)
    (model session) (created_at session) (updated_at session) msgs
    (context session).

Definition with_session_id (sid : string) (session : Session) : Session :=
  mkSession sid (user_name session) (user_persona session) (model session)
    (created_at session) (updated_at session) (messages session)
    (context session).

Definition with_session_updated_at (t : string) (session : Session)
  : Session :=
  mkSession (session_id session) (user_name session) (user_persona session)
    (model session) (created_at session) t (messages session)
    (context session).

Definition _get_session_from_db (sid : string) (m : MemoryManager)
  : option Session :=
  match sessions (db m) !! sid with
  | None => None
  | Some row =>
      let session :=
        mkSession sid (col_user_name row) (col_user_persona row)
          (col_model row) (col_created_at row) (col_updated_at row) []
          (col_context row) in
      Some (fold_left
              (fun s r =>
                 append_message s
                   (mkMessage (col_role r) (col_content r) (col_timestamp r)
                      (col_metadata r)))
              (select_messages sid (db m)) session)
  end.

Definition _get_session_from_file (sid : string) (m : MemoryManager)
  : option Session :=
  match files m !! file_path sid with
  | None => None
  | Some EmptyFile => None
  | Some (SessionJson data) =>
      let session :=
        mkSession (session_id data) (user_name data) (user_persona data)
          (model data) (created_at data) (updated_at data) []
          (context data) in
      Some (fold_left
              (fun s msg_data =>
                 append_message s
                   (mkMessage (role msg_data) (content msg_data)
                      (timestamp msg_data) (metadata msg_data)))
              (messages data) session)
  end.

Definition get_session (sid : string) (m : MemoryManager) : option Session :=
  if use_db m then _get_session_from_db sid m
  else _get_session_from_file sid m.

Definition create_session (sid : option string) (model : string)
  (m : MemoryManager) : Session * MemoryManager :=
  let '(session_id, m) :=
    match sid with
    | Some s => (s, m)
    | None =>
        let '(d, m) := datetime_now m in
        ("session_" +:+ strftime_stamp d, m)
    end in
  let user_name := default "User" (config m !! "USER_NAME") in
  let user_persona := default "" (config m !! "USER_PERSONA") in
  let '(c, m) := datetime_now m in
  let '(u, m) := datetime_now m in
  let session :=
    mkSession session_id user_name user_persona model (isoformat c)
      (isoformat u) [] [] in
  let m :=
    if use_db m then _save_session_to_db session m
    else _save_session_to_file session m in
  (session, set_current_session (Some session) m).

Definition save_session (session : Session) (m : MemoryManager)
  : MemoryManager :=
  let '(d, m) := datetime_now m in
  let session := with_session_updated_at (isoformat d) session in
  if use_db m then _save_session_to_db session m
  else _save_session_to_file session m.

(** Whether [current_session] is set and carries the given id. *)
Definition current_is (sid : string) (m : MemoryManager) : bool :=
  match current_session m with
  | Some c => bool_decide (session_id c = sid)
  | None => false
  end.

(** The three file operations of a rename, in the order the code issues
    them: reopen the old file for writing, dump the session with the new id
    into it, rename it. *)
Definition rename_file_ops (old_session_id new_session_id : string)
  (data : Session) : list FileOp :=
  [OpenW (file_path old_session_id);
   JsonDump (file_path old_session_id) (with_session_id new_session_id data);
   Rename (file_path old_session_id) (file_path new_session_id)].

Definition rename_session (old_session_id new_session_id : string)
  (m : MemoryManager) : bool * MemoryManager :=
  if negb (truthy new_session_id) || strip_is_empty new_session_id
  then (false, m)
  else if bool_decide (is_Some (get_session new_session_id m))
  then (false, m)
  else
    let '(ok, m) :=
      if use_db m then
        match update_sessions_id old_session_id new_session_id
                (sessions (db m)) with
        | Some tbl =>
            (true,
             set_db
               (mkDatabase tbl
                  (update_messages_id old_session_id new_session_id
                     (messages_table (db m)))
                  (sqlite_sequence (db m))) m)
        | None => (false, m)
        end
      else
        match files m !! file_path old_session_id with
        | Some (SessionJson data) =>
            let '(fs, ok) :=
              run_ops (rename_file_ops old_session_id new_session_id data)
                (files m) in
            (ok, set_files fs m)
        | Some EmptyFile => (false, m)
        | None => (false, m)
        end in
    if ok then
      let m :=
        if current_is old_session_id m then
          set_current_session
            (with_session_id new_session_id <$> current_session m) m
        else m in
      (true, m)
    else (false, m).

Definition _add_message_to_db (sid : string) (message : Message)
  (m : MemoryManager) : MemoryManager :=
  let m := set_db (insert_message sid message (db m)) m in
  let '(d, m) := datetime_now m in
  set_db (update_updated_at (isoformat d) sid (db m)) m.

Definition add_message (role content : string) (sid : option string)
  (metadata : option Dict) (m : MemoryManager)
  : option Message * MemoryManager :=
  let metadata := default [] metadata in
  let sid := py_or sid (session_id <$> current_session m) in
  if negb (truthy_opt sid) then (None, m)
  else
    let session_id := default "" sid in
    let '(d, m) := datetime_now m in
    let message := mkMessage role content (isoformat d) metadata in
    let m :=
      if use_db m then _add_message_to_db session_id message m
      else
        match get_session session_id m with
        | Some session =>
            _save_session_to_file (append_message session message) m
        | None => m
        end in
    let m :=
      if current_is session_id m then
        set_current_session
          ((fun c => append_message c message) <$> current_session m) m
      else m in
    (Some message, m).

Definition get_conversation_history (sid : option string) (limit : option Z)
  (m : MemoryManager) : list (string * string) :=
  let sid := py_or sid (session_id <$> current_session m) in
  if negb (truthy_opt sid) then []
  else
    match get_session (default "" sid) m with
    | None => []
    | Some session =>
        let msgs := messages session in
        let msgs :=
          match limit with
          | Some n => if n =? 0 then msgs else py_slice_from (- n) msgs
          | None => msgs
          end in
        map (fun msg => (role msg, content msg)) msgs
    end.

Definition is_document_context (msg : Message) : Prop :=
  role msg = "document_context".

Definition clear_session_messages (sid : string) (m : MemoryManager)
  : bool * MemoryManager :=
  let stored : option MemoryManager :=
    if use_db m then
      let m := set_db (delete_messages sid (db m)) m in
      let '(d, m) := datetime_now m in
      Some (set_db (update_updated_at (isoformat d) sid (db m)) m)
    else
      match get_session sid m with
      | Some session =>
          Some (_save_session_to_file
                  (with_messages
                     (filter is_document_context (messages session)) session)
                  m)
      | None => None
      end in
  match stored with
  | None => (false, m)
  | Some m =>
      let m :=
        if current_is sid m then
          set_current_session
            ((fun c =>
                with_messages (filter is_document_context (messages c)) c)
               <$> current_session m) m
        else m in
      (true, m)
  end.

(** [DELETE FROM sessions WHERE session_id = ?]. *)
Definition delete_session_row (sid : string) (d : Database) : Database :=
  mkDatabase (delete sid (sessions d)) (messages_table d) (sqlite_sequence d).

Definition delete_session (sid : string) (m : MemoryManager)
  : bool * MemoryManager :=
  let m :=
    if use_db m then
      set_db (delete_session_row sid (delete_messages sid (db m))) m
    else
      match files m !! file_path sid with
      | Some _ => set_files (delete (file_path sid) (files m)) m
      | None => m
      end in
  let m :=
    if current_is sid m then set_current_session None m else m in
  (true, m).

Fixpoint drop_prefix (p s : string) : option string :=
  match p, s with
  | EmptyString, _ => Some s
  | String a p', String b s' =>
      if Ascii.eqb a b then drop_prefix p' s' else None
  | String _ _, EmptyString => None
  end.

Fixpoint ends_with_json (s : string) : bool :=
  match s with
  | EmptyString => false
  | String _ t => String.eqb s ".json" || ends_with_json t
  end.

(** Whether a file name of the storage directory matches the pattern
    [session_*.json] of [Path.glob]: the star stands for any run of
    characters other than the path separator. *)
Definition glob_session_json (name : string) : bool :=
  match drop_prefix "session_" name with
  | Some rest => ends_with_json rest && negb (has_slash rest)
  | None => false
  end.

Definition clear_all (m : MemoryManager) : bool * MemoryManager :=
  let m :=
    if use_db m then
      set_db (mkDatabase ∅ [] (sqlite_sequence (db m))) m
    else
      set_files
        (filter (fun kv => glob_session_json (fst kv) = false) (files m)) m in
  (true, set_current_session None m).

End Memory.

(** ** chromadb_rag.py: the retrieval index

    The ChromaDB collection, the embedding service, the text splitter and
    SHA-256 are libraries outside the repository.  The splitter and the
    embedding service are fields of the object, as in the code; SHA-256 and
    the distance of the cosine-space index are parameters of the section.
    The collection is modelled by the part of its contract the code relies
    on: [collection_add] and [collection_query] below.  Floating-point
    distances are modelled by rationals. *)

Module Rag.

Inductive MetaValue :=
| MStr (s : string)
| MInt (n : Z).

Definition Embedding := list Q.

Record DocumentInput := mkDocumentInput {
  doc_content : string;
  doc_source : option string;
  doc_metadata : option (gmap string MetaValue)
}.

Record ChunkRecord := mkChunkRecord {
  chunk_id : string;
  chunk_document : string;
  chunk_embedding : Embedding;
  chunk_metadata : gmap string MetaValue
}.

(** The embedding service; [None] stands for a raised exception. *)
Record Embeddings := mkEmbeddings {
  embed_documents : list string -> option (list Embedding);
  embed_query : string -> option Embedding
}.

Record ChromaDBRAG := mkChromaDBRAG {
  embeddings : option Embeddings;
  text_splitter : string -> list string;
  collection : list ChunkRecord
}.

Definition set_collection (c : list ChunkRecord) (rag : ChromaDBRAG)
  : ChromaDBRAG :=
  mkChromaDBRAG (embeddings rag) (text_splitter rag) c.

(** An entry of [chunks_to_add]. *)
Record Chunk := mkChunk {
  id : string;
  document : string;
  metadata : gmap string MetaValue
}.

(** What [collection.query] returns: one inner list per query embedding. *)
Record QueryResult := mkQueryResult {
  res_documents : option (list (list string));
  res_distances : option (list (list Q));
  res_metadatas : option (list (list (gmap string MetaValue)))
}.

(** An entry of the list [query] returns. *)
Record Hit := mkHit {
  hit_content : string;
  hit_similarity : Q;
  hit_distance : Q;
  hit_metadata : gmap string MetaValue
}.

Definition Qltb (a b : Q) : bool := negb (Qle_bool b a).

Section Index.

Variable sha256_hexdigest : string -> string.
Variable cosine_distance : Embedding -> Embedding -> Q.

(** *** The collection's contract *)

Fixpoint zip_records (ids : list string) (embs : list Embedding)
  (docs : list string) (metas : list (gmap string MetaValue))
  : list ChunkRecord :=
  match ids, embs, docs, metas with
  | i :: ids, e :: embs, d :: docs, mt :: metas =>
      mkChunkRecord i d e mt :: zip_records ids embs docs metas
  | _, _, _, _ => []
  end.

(** Keep the records whose id is not stored yet. *)
Fixpoint add_new (recs : list ChunkRecord) (c : list ChunkRecord)
  : list ChunkRecord :=
  match recs with
  | [] => c
  | r :: rest =>
      if bool_decide (chunk_id r ∈ map chunk_id c) then add_new rest c
      else add_new rest (c ++ [r])
  end.

(** [collection.add(ids, embeddings, documents, metadatas)]: raises on an
    empty batch, on lists of different lengths and on an id repeated inside
    the batch; otherwise stores the records whose id is new and ignores the
    ones whose id is already stored. *)
Definition collection_add (ids : list string) (embs : list Embedding)
  (docs : list string) (metas : list (gmap string MetaValue))
  (c : list ChunkRecord) : option (list ChunkRecord) :=
  if bool_decide (ids <> [] /\ length embs = length ids /\
                  length docs = length ids /\ length metas = length ids /\
                  NoDup ids)
  then Some (add_new (zip_records ids embs docs metas) c)
  else None.

Fixpoint insert_by_distance (x : ChunkRecord * Q) (l : list (ChunkRecord * Q))
  : list (ChunkRecord * Q) :=
  match l with
  | [] => [x]
  | y :: t =>
      if Qle_bool (snd x) (snd y) then x :: l
      else y :: insert_by_distance x t
  end.

(** Every stored record with its distance to the query, nearest first. *)
Definition nearest (q : Embedding) (c : list ChunkRecord)
  : list (ChunkRecord * Q) :=
  foldr insert_by_distance []
    (map (fun r => (r, cosine_distance q (chunk_embedding r))) c).

(** [collection.query(query_embeddings=[q], n_results=n, include=[...])]:
    raises when [n] is zero; otherwise the [n] nearest records, nearest
    first, as three parallel lists. *)
Definition collection_query (q : Embedding) (n_results : nat)
  (c : list ChunkRecord) : option QueryResult :=
  match n_results with
  | O => None
  | S _ =>
      let hits := take n_results (nearest q c) in
      Some (mkQueryResult
              (Some [map (fun h => chunk_document (fst h)) hits])
              (Some [map snd hits])
              (Some [map (fun h => chunk_metadata (fst h)) hits]))
  end.

(** *** ChromaDBRAG methods *)

Definition chunks_of_document (splitter : string -> list string)
  (doc : DocumentInput) : list Chunk :=
  if truthy (doc_content doc) then
    imap (fun chunk_idx chunk =>
            mkChunk ("doc_" +:+ sha256_hexdigest chunk) chunk
              (<["chunk_index" := MInt (Z.of_nat chunk_idx)]>
                 (<["source" := MStr (default "unknown" (doc_source doc))]>
                    (default ∅ (doc_metadata doc)))))
      (splitter (doc_content doc))
  else [].

Definition chunks_to_add (splitter : string -> list string)
  (documents : list DocumentInput) : list Chunk :=
  flat_map (chunks_of_document splitter) documents.

(** The fallback loop: embed and add one chunk at a time, skipping the
    chunks for which either step raises. *)
Definition add_individually (emb : Embeddings) (chunks : list Chunk)
  (c : list ChunkRecord) : nat * list ChunkRecord :=
  fold_left
    (fun '(added_count, c) chunk_data =>
       match embed_query emb (document chunk_data) with
       | Some embedding =>
           match collection_add [id chunk_data] [embedding]
                   [document chunk_data] [metadata chunk_data] c with
           | Some c' => (S added_count, c')
           | None => (added_count, c)
           end
       | None => (added_count, c)
       end)
    chunks (O, c).

Definition add_documents (documents : list DocumentInput) (rag : ChromaDBRAG)
  : nat * ChromaDBRAG :=
  match documents with
  | [] => (O, rag)
  | _ :: _ =>
      match embeddings rag with
      | None => (O, rag)
      | Some emb =>
          let chunks := chunks_to_add (text_splitter rag) documents in
          match chunks with
          | [] => (O, rag)
          | _ :: _ =>
              let ids := map id chunks in
              let docs := map document chunks in
              let metadatas := map metadata chunks in
              let batch :=
                match embed_documents emb docs with
                | Some embs =>
                    collection_add ids embs docs metadatas (collection rag)
                | None => None
                end in
              match batch with
              | Some c => (length ids, set_collection c rag)
              | None =>
                  let '(added_count, c) :=
                    add_individually emb chunks (collection rag) in
                  (added_count, set_collection c rag)
              end
          end
      end
  end.

(** The distance of hit [i]: [distances[0][i]] when present, else [0.0]. *)
Definition distance_at (distances : option (list (list Q))) (i : nat) : Q :=
  match distances with
  | Some (d0 :: _) => default 0%Q (d0 !! i)
  | _ => 0%Q
  end.

Definition metadata_at (metadatas : option (list (list (gmap string MetaValue))))
  (i : nat) : gmap string MetaValue :=
  match metadatas with
  | Some (m0 :: _) => default ∅ (m0 !! i)
  | _ => ∅
  end.

(** One turn of the formatting loop: [None] when the hit is skipped. *)
Definition format_hit (results : QueryResult) (threshold : Q) (i : nat)
  (doc : string) : option Hit :=
  let distance := distance_at (res_distances results) i in
  let similarity := (1 - distance)%Q in
  if Qltb similarity threshold then None
  else Some (mkHit doc similarity distance
               (metadata_at (res_metadatas results) i)).

Definition query (query_text : string) (top_k : nat) (threshold : Q)
  (rag : ChromaDBRAG) : list Hit :=
  match embeddings rag with
  | None => []
  | Some emb =>
      match embed_query emb query_text with
      | None => []
      | Some query_embedding =>
          match collection_query query_embedding top_k (collection rag) with
          | None => []
          | Some results =>
              match res_documents results with
              | Some (d0 :: _) =>
                  omap (fun x => x) (imap (format_hit results threshold) d0)
              | _ => []
              end
          end
      end
  end.

Definition add_text (text : string) (source : string) (rag : ChromaDBRAG)
  : nat * ChromaDBRAG :=
  add_documents
    [mkDocumentInput text (Some source)
       (Some (<["type" := MStr "user_text"]> ∅))]
    rag.

(** [delete_collection]: the collection is dropped and re-created empty. *)
Definition delete_collection (rag : ChromaDBRAG) : bool * ChromaDBRAG :=
  (true, set_collection [] rag).

Definition newline : string := String (ascii_of_nat 10) EmptyString.

(** [str(v)] for a metadata value. *)
Definition meta_str (v : MetaValue) : string :=
  match v with
  | MStr s => s
  | MInt n => pretty n
  end.

(** [f"{similarity:.2%}"], the rendering of a float as a percentage, is
    left to Python's number formatting. *)
Variable format_percent : Q -> string.

(** The two lines [query_with_context] adds for the [i]-th result. *)
Definition context_entry (i : nat) (result : Hit) : string :=
  let source :=
    default "unknown" (meta_str <$> hit_metadata result !! "source") in
  "### Source " +:+ pretty i +:+ ": " +:+ source +:+ " (Relevance: " +:+
  format_percent (hit_similarity result) +:+ ")" +:+ newline +:+
  hit_content result +:+ newline +:+ newline.

Definition query_with_context (query_text : string) (top_k : nat)
  (rag : ChromaDBRAG) : string :=
  let results := query query_text top_k (1 # 2) rag in
  match results with
  | [] => ""
  | _ :: _ =>
      fold_left (fun context '(i, result) => context +:+ context_entry i result)
        (imap (fun i result => (S i, result)) results)
        ("## Retrieved Context:" +:+ newline +:+ newline)
  end.

End Index.

End Rag.

(** ** chatbot.py: throttle and prompt assembly

    The code computes with clock readings in binary64.  Its translation is
    written once over the arithmetic it uses (subtraction, addition, the
    comparison and the constant 60) and read at two arithmetics: [binary64],
    the one of the code, and [exact], the rationals.

    [time.time()], [time.sleep()] and [llm.invoke()] are the actions of the
    program on its environment.  Before each of them the environment lets
    an amount of time pass ([drift]), which covers the time the computation
    in between takes, such as assembling the prompt.  [time.sleep(d)] then
    moves the clock forward by [d].  Sleeps and dispatches are logged in
    order, a dispatch with the clock reading at which it happens and the
    prompt handed to the model. *)

Module Chatbot.

Record Arith := mkArith {
  num : Type;
  sub : num -> num -> num;
  add : num -> num -> num;
  ltb : num -> num -> bool;
  RATE_LIMIT_DURATION : num     (* 60 seconds *)
}.

Definition binary64 : Arith :=
  mkArith float PrimFloat.sub PrimFloat.add PrimFloat.ltb 60%float.

Definition exact : Arith :=
  mkArith Q Qminus Qplus Rag.Qltb 60%Q.

Inductive ChatResult :=
| Response (text : string)
| ValueError
| APIError.

Definition nl : string := String (ascii_of_nat 10) EmptyString.

(** [sep.join(parts)]. *)
Fixpoint join (sep : string) (parts : list string) : string :=
  match parts with
  | [] => ""
  | [p] => p
  | p :: rest => p +:+ sep +:+ join sep rest
  end.

(** [parts.append(p)]. *)
Definition append_part (parts : list string) (p : string) : list string :=
  (parts ++ [p])%list.

(** The list [prompt_parts] once [chat] has filled it. *)
Definition prompt_parts (message : string) (user_name user_persona : option string)
  (history : option (list (string * string))) (rag_context : option string)
  : list string :=
  let parts : list string := [] in
  let parts :=
    if truthy_opt user_name && truthy_opt user_persona then
      append_part parts
        ("You are responding to " +:+ default "" user_name +:+
         ", whose persona is: '" +:+ default "" user_persona +:+ "'.")
    else if truthy_opt user_name then
      append_part parts
        ("You are responding to " +:+ default "" user_name +:+ ".")
    else if truthy_opt user_persona then
      append_part parts
        ("The user's persona is: '" +:+ default "" user_persona +:+ "'.")
    else parts in
  let parts :=
    if truthy_opt rag_context then append_part parts (default "" rag_context)
    else parts in
  let parts :=
    fold_left
      (fun parts '(role, content) =>
         if bool_decide (role = "document_context") then
           append_part parts
             ("## Imported Document Context:" +:+ nl +:+ content)
         else parts)
      (default [] history) parts in
  let parts :=
    fold_left
      (fun parts '(role, content) =>
         if bool_decide (role = "user") then
           append_part parts ("User: " +:+ content)
         else if bool_decide (role = "assistant") then
           append_part parts ("Assistant: " +:+ content)
         else parts)
      (default [] history) parts in
  append_part parts ("User's message: " +:+ message).

Definition build_prompt (message : string) (user_name user_persona : option string)
  (history : option (list (string * string))) (rag_context : option string)
  : string :=
  join (nl +:+ nl) (prompt_parts message user_name user_persona history
                      rag_context).

Section Throttle.

Variable A : Arith.

Inductive Event :=
| Slept (d : num A)
| Dispatched (at_time : num A) (prompt : string).

Record Chatbot := mkChatbot {
  llm_invoke : string -> option string;   (* None: the call raises *)
  last_request_time : num A;
  wall : num A;
  drift : nat -> num A;
  steps : nat;
  events : list Event
}.

Definition pass_time (bot : Chatbot) : Chatbot :=
  mkChatbot (llm_invoke bot) (last_request_time bot)
    (add A (wall bot) (drift bot (steps bot))) (drift bot) (S (steps bot))
    (events bot).

Definition time_time (bot : Chatbot) : num A * Chatbot :=
  let bot := pass_time bot in (wall bot, bot).

Definition time_sleep (d : num A) (bot : Chatbot) : Chatbot :=
  let bot := pass_time bot in
  mkChatbot (llm_invoke bot) (last_request_time bot) (add A (wall bot) d)
    (drift bot) (steps bot) (events bot ++ [Slept d]).

Definition set_last_request_time (t : num A) (bot : Chatbot) : Chatbot :=
  mkChatbot (llm_invoke bot) t (wall bot) (drift bot) (steps bot)
    (events bot).

(** The rate-limiting block of [chat]. *)
Definition rate_limit (bot : Chatbot) : Chatbot :=
  let '(current_time, bot) := time_time bot in
  let elapsed_time := sub A current_time (last_request_time bot) in
  let bot :=
    if ltb A elapsed_time (RATE_LIMIT_DURATION A) then
      time_sleep (sub A (RATE_LIMIT_DURATION A) elapsed_time) bot
    else bot in
  let '(t, bot) := time_time bot in
  set_last_request_time t bot.

(** [self.llm.invoke(prompt)]: the dispatch, logged with its time. *)
Definition invoke (prompt : string) (bot : Chatbot)
  : option string * Chatbot :=
  let bot := pass_time bot in
  (llm_invoke bot prompt,
   mkChatbot (llm_invoke bot) (last_request_time bot) (wall bot) (drift bot)
     (steps bot) (events bot ++ [Dispatched (wall bot) prompt])).

Definition chat (message : string) (user_name user_persona : option string)
  (history : option (list (string * string))) (rag_context : option string)
  (bot : Chatbot) : ChatResult * Chatbot :=
  if negb (truthy message) || strip_is_empty message then (ValueError, bot)
  else
    let bot := rate_limit bot in
    let prompt :=
      build_prompt message user_name user_persona history rag_context in
    let '(result, bot) := invoke prompt bot in
    match result with
    | Some result => (Response result, bot)
    | None => (APIError, bot)
    end.

End Throttle.

Arguments Slept {A} d.
Arguments Dispatched {A} at_time prompt.
Arguments llm_invoke {A} c.
Arguments last_request_time {A} c.
Arguments wall {A} c.
Arguments drift {A} c.
Arguments steps {A} c.
Arguments events {A} c.

(** *** The layout of the prompt in the words of the specification *)

Definition preamble_block (user_name user_persona : option string)
  : list string :=
  match truthy_opt user_name, truthy_opt user_persona with
  | true, true =>
      ["You are responding to " +:+ default "" user_name +:+
       ", whose persona is: '" +:+ default "" user_persona +:+ "'."]
  | true, false =>
      ["You are responding to " +:+ default "" user_name +:+ "."]
  | false, true =>
      ["The user's persona is: '" +:+ default "" user_persona +:+ "'."]
  | false, false => []
  end.

Definition retrieved_block (rag_context : option string) : list string :=
  match rag_context with
  | Some c => if truthy c then [c] else []
  | None => []
  end.

Definition document_block (history : list (string * string)) : list string :=
  map (fun e => "## Imported Document Context:" +:+ nl +:+ snd e)
    (filter (fun e => fst e = "document_context") history).

Definition turn_label (role : string) : string :=
  if bool_decide (role = "user") then "User: " else "Assistant: ".

Definition turn_block (history : list (string * string)) : list string :=
  map (fun e => turn_label (fst e) +:+ snd e)
    (filter (fun e => fst e = "user" \/ fst e = "assistant") history).

Definition current_block (message : string) : list string :=
  ["User's message: " +:+ message].

End Chatbot.

(** ** Vocabulary for the statements about memory.py *)

Module MemorySpec.
Import Memory.

(** The invariant SQLite maintains on the [messages] table: ids increase
    along the table and none exceeds the AUTOINCREMENT sequence. *)
Definition db_wf (d : Database) : Prop :=
  StronglySorted (fun a b => col_id a < col_id b) (messages_table d) /\
  Forall (fun r => col_id r <= sqlite_sequence d) (messages_table d).

(** The message a row of the [messages] table is loaded as. *)
Definition row_message (r : MessageRow) : Message :=
  mkMessage (col_role r) (col_content r) (col_timestamp r) (col_metadata r).

(** Session [sid] is stored, in the backend the manager uses. *)
Definition session_stored (sid : string) (m : MemoryManager) : Prop :=
  if use_db m then db_wf (db m) /\ is_Some (sessions (db m) !! sid)
  else exists data,
      files m !! file_path sid = Some (SessionJson data) /\
      session_id data = sid.

(** One call [add_message(role, content, session_id=sid, metadata)]. *)
Record AddCall := mkAddCall {
  call_role : string;
  call_content : string;
  call_metadata : option Dict
}.

(** A sequence of [add_message] calls on session [sid]. *)
Definition add_messages (sid : string) (calls : list AddCall)
  (m : MemoryManager) : MemoryManager :=
  fold_left
    (fun m c =>
       snd (add_message (call_role c) (call_content c) (Some sid)
              (call_metadata c) m))
    calls m.

(** The last [n] elements of a list, all of them when there are fewer. *)
Definition last_n {A} (n : nat) (l : list A) : list A :=
  drop (length l - n) l.

(** Some file of the file system still holds the session [data], under its
    old or under any other id. *)
Definition session_recoverable (data : Session)
  (fs : gmap string FileContent) : Prop :=
  exists path d,
    fs !! path = Some (SessionJson d) /\
    with_session_id "" d = with_session_id "" data.

(** Crash safety of a rename as the specification words it: the session
    stays recoverable in the file system reached after each operation. *)
Definition rename_crash_safe (old_session_id new_session_id : string)
  (data : Session) (fs : gmap string FileContent) : Prop :=
  Forall (session_recoverable data)
    (trace_ops (rename_file_ops old_session_id new_session_id data) fs).

(** No non-empty tail of [p] is a prefix of [t]: a string that does not
    start with [p] cannot come to start with [p] by appending [t]. *)
Fixpoint overlap_free (p t : string) : Prop :=
  match p with
  | EmptyString => True
  | String _ p' => drop_prefix p t = None /\ overlap_free p' t
  end.

(** What rename_session makes of [current_session]. *)
Definition rename_current (old new : string) (cur : option Session)
  : option Session :=
  match cur with
  | Some c =>
      if bool_decide (session_id c = old) then Some (with_session_id new c)
      else cur
  | None => None
  end.

(** Session [old] is stored, in the backend the manager uses, nothing is
    stored under [new], both ids are non-blank and the current session does
    not carry the id [new]. *)
Definition renamable (old new : string) (m : MemoryManager) : Prop :=
  truthy old = true /\ strip_is_empty old = false /\
  truthy new = true /\ strip_is_empty new = false /\
  current_is new m = false /\
  if use_db m then
    is_Some (sessions (db m) !! old) /\ sessions (db m) !! new = None /\
    Forall (fun r => col_session_id r <> new) (messages_table (db m))
  else
    (exists data, files m !! file_path old = Some (SessionJson data) /\
                  session_id data = old) /\
    files m !! file_path new = None /\
    plain_name (file_path old) = true /\ plain_name (file_path new) = true.

(** *** Concrete stores *)

Definition digit (n : nat) : string :=
  match n with
  | 0%nat => "0" | 1%nat => "1" | 2%nat => "2" | 3%nat => "3" | 4%nat => "4"
  | 5%nat => "5" | 6%nat => "6" | 7%nat => "7" | 8%nat => "8" | _ => "9"
  end.

(** A clock that advances by one second per reading. *)
Definition ex_clock (n : nat) : datetime :=
  let ss := digit (n / 10) +:+ digit (n mod 10) in
  mkDatetime ("2025-01-01T00:00:" +:+ ss) ("20250101_0000" +:+ ss).

Definition ex_empty (use_db : bool) : MemoryManager :=
  mkMemoryManager ex_clock 0 ∅ use_db (mkDatabase ∅ [] 0) ∅ None.

Definition ex_calls : list AddCall :=
  [mkAddCall "document_context" "Document: note.txt" None;
   mkAddCall "user" "hi" None;
   mkAddCall "assistant" "hello" None].

(** Session ["s1"] with one imported document and one exchange. *)
Definition ex_chat (use_db : bool) : MemoryManager :=
  add_messages "s1" ex_calls
    (snd (create_session (Some "s1") "gemini-2.5-flash" (ex_empty use_db))).

(** The session the file "s1.json" of [ex_chat false] holds. *)
Definition ex_session : Session :=
  mkSession "s1" "User" "" "gemini-2.5-flash" "2025-01-01T00:00:00"
    "2025-01-01T00:00:01"
    [mkMessage "document_context" "Document: note.txt"
       "2025-01-01T00:00:02" [];
     mkMessage "user" "hi" "2025-01-01T00:00:03" [];
     mkMessage "assistant" "hello" "2025-01-01T00:00:04" []]
    [].

End MemorySpec.

(** ** Vocabulary for the statements about chromadb_rag.py *)

Module RagSpec.
Import Rag.

(** The ids stored in a collection, in storage order. *)
Definition stored_ids (c : list ChunkRecord) : list string :=
  map chunk_id c.

(** The chunk texts of a document with the given content: none when the
    content is empty. *)
Definition chunk_texts (splitter : string -> list string) (content : string)
  : list string :=
  if truthy content then splitter content else [].

(** One turn of the fallback loop of [add_documents], on the collection
    alone. *)
Definition add_one (emb : Embeddings) (c : list ChunkRecord) (chunk : Chunk)
  : list ChunkRecord :=
  match embed_query emb (document chunk) with
  | Some e =>
      if bool_decide (id chunk ∈ stored_ids c) then c
      else c ++ [mkChunkRecord (id chunk) (document chunk) e (metadata chunk)]
  | None => c
  end.

(** One turn of the fallback loop, with its counter. *)
Definition add_step (emb : Embeddings) (acc : nat * list ChunkRecord)
  (chunk_data : Chunk) : nat * list ChunkRecord :=
  let '(added_count, c) := acc in
  match embed_query emb (document chunk_data) with
  | Some embedding =>
      match collection_add [id chunk_data] [embedding]
              [document chunk_data] [metadata chunk_data] c with
      | Some c' => (S added_count, c')
      | None => (added_count, c)
      end
  | None => (added_count, c)
  end.

(** The collection [add_documents] leaves when it has chunks to add: the
    batch result when the batch goes through, the result of the fallback
    loop otherwise. *)
Definition import_into (emb : Embeddings) (chunks : list Chunk)
  (c : list ChunkRecord) : list ChunkRecord :=
  match
    match embed_documents emb (map document chunks) with
    | Some embs =>
        collection_add (map id chunks) embs (map document chunks)
          (map metadata chunks) c
    | None => None
    end
  with
  | Some c' => c'
  | None => fold_left (add_one emb) chunks c
  end.

(** Results in order of descending similarity. *)
Definition descending (hits : list Hit) : Prop :=
  StronglySorted (fun a b => (hit_similarity b <= hit_similarity a)%Q) hits.

(** Nearest first: distances ascend along the list. *)
Definition ascending (hits : list (ChunkRecord * Q)) : Prop :=
  StronglySorted (fun a b => (snd a <= snd b)%Q) hits.

(** What the formatting loop of [query] makes of one record returned by the
    collection with its distance. *)
Definition hit_of (threshold : Q) (h : ChunkRecord * Q) : option Hit :=
  if Qltb (1 - snd h) threshold then None
  else Some (mkHit (chunk_document (fst h)) (1 - snd h) (snd h)
               (chunk_metadata (fst h))).

(** *** A concrete index

    One-dimensional embeddings: a text is embedded as its length, and the
    distance of two embeddings is a tenth of the difference of their first
    coordinates.  The splitter cuts at nothing, and the stand-in for the
    hash is the identity. *)

Definition ex_sha256 (s : string) : string := s.

Definition ex_embed (s : string) : Embedding :=
  [inject_Z (Z.of_nat (String.length s))].

Definition ex_embeddings : Embeddings :=
  mkEmbeddings (fun docs => Some (map ex_embed docs))
    (fun s => Some (ex_embed s)).

Definition ex_distance (a b : Embedding) : Q :=
  match a, b with
  | x :: _, y :: _ => (Qabs (x - y) / 10)%Q
  | _, _ => 1%Q
  end.

Definition ex_rag : ChromaDBRAG :=
  mkChromaDBRAG (Some ex_embeddings) (fun s => [s]) [].

Definition ex_docs : list DocumentInput :=
  [mkDocumentInput "The sky is blue." (Some "note.txt") None;
   mkDocumentInput "Grass is green" None None;
   mkDocumentInput "" (Some "empty.txt") None].

(** The index after importing [ex_docs]. *)
Definition ex_index : ChromaDBRAG :=
  snd (add_documents ex_sha256 ex_docs ex_rag).

End RagSpec.
(** ** Vocabulary for the statements about chatbot.py *)

Module ChatbotSpec.
Import Chatbot.

(** The message passes the guard at the head of [chat]. *)
Definition valid_message (message : string) : Prop :=
  truthy message = true /\ strip_is_empty message = false.

(** The prompts handed to the model, in the order of the dispatches. *)
Definition dispatched {A : Arith} (evs : list (Event A)) : list string :=
  omap (fun e => match e with
                 | Dispatched _ prompt => Some prompt
                 | Slept _ => None
                 end) evs.

(** The clock readings at which the dispatches happen. *)
Definition dispatch_times {A : Arith} (evs : list (Event A))
  : list (num A) :=
  omap (fun e => match e with
                 | Dispatched t _ => Some t
                 | Slept _ => None
                 end) evs.

(** The clock reading [chat] takes on entry to its rate-limiting block. *)
Definition entry_time {A : Arith} (bot : Chatbot A) : num A :=
  add A (wall bot) (drift bot (steps bot)).

(** Time never runs backwards between two actions of the program. *)
Definition time_passes (bot : Chatbot exact) : Prop :=
  forall k, (0 <= drift bot k)%Q.

(** The rational a finite binary64 number stands for. *)
Definition to_Q (x : float) : option Q :=
  match FloatOps.Prim2SF x with
  | SpecFloat.S754_zero _ => Some 0%Q
  | SpecFloat.S754_finite s m e =>
      let v := if (0 <=? e)%Z then inject_Z (Z.pos m * 2 ^ e)
               else (Z.pos m # Pos.shiftl 1 (Z.to_N (- e)))%Q in
      Some (if s then Qopp v else v)
  | _ => None
  end.

(** [y - x < q] on the numbers the two binary64 values stand for. *)
Definition closer_than (q : Q) (x y : float) : bool :=
  match to_Q x, to_Q y with
  | Some x, Some y => Rag.Qltb (y - x) q
  | _, _ => false
  end.

(** *** Concrete chatbots

    The model answers with the prompt it was given.  [ex_bot] is a fresh
    chatbot ([last_request_time = 0]) on a clock that reads 1700000000
    seconds; the first call follows start-up by 10 seconds and spends half a
    second between recording its time and the dispatch, the second call
    comes a quarter of a second after the first dispatch and proceeds
    without delay.  [ex_bot_exact] is the same chatbot over the rationals.
    [ex_bot_early] is a fresh chatbot on a clock that starts at zero: the
    first call comes at 60.1 seconds and the second a quarter of a second
    later; no other time passes. *)

Definition ex_llm (prompt : string) : option string :=
  Some ("ok " +:+ prompt).

Definition ex_bot : Chatbot binary64 :=
  mkChatbot binary64 ex_llm 0%float 1700000000%float
    (fun k => match k with
              | 0%nat => 10%float
              | 2%nat => 0.5%float
              | 3%nat => 0.25%float
              | _ => 0%float
              end) 0 [].

Definition ex_bot_exact : Chatbot exact :=
  mkChatbot exact ex_llm 0%Q 1700000000%Q
    (fun k => match k with
              | 0%nat => 10%Q
              | 2%nat => (1 # 2)%Q
              | 3%nat => (1 # 4)%Q
              | _ => 0%Q
              end) 0 [].

Definition ex_bot_early : Chatbot binary64 :=
  mkChatbot binary64 ex_llm 0%float 0%float
    (fun k => match k with
              | 0%nat => 0x1.e0ccccccccccdp+5%float    (* 60.1 *)
              | 3%nat => 0.25%float
              | _ => 0%float
              end) 0 [].

(** A chatbot whose model is down: every call raises.  An eighth of a
    second passes before each action. *)
Definition ex_bot_down : Chatbot binary64 :=
  mkChatbot binary64 (fun _ => None) 0%float 1700000000%float
    (fun _ => 0.125%float) 0 [].

Definition ex_history : list (string * string) :=
  [("user", "hi"); ("document_context", "Document: a.txt");
   ("assistant", "hello"); ("system", "ignored");
   ("document_context", "Document: b.txt"); ("user", "bye")].

End ChatbotSpec.

(** * Verification of memory.py *)

Module MemoryProofs.
Import Memory MemorySpec.

(** Evaluate each conjunct of a closed goal. *)
Ltac compute_each :=
  vm_compute; repeat match goal with |- _ /\ _ => split end; reflexivity.

(** ** Loading a session *)

Lemma fold_append_message {X} (g : X -> Message) (l : list X) (s : Session) :
  fold_left (fun s x => append_message s (g x)) l s =
  with_messages (messages s ++ map g l) s.
Proof.
  revert s. induction l as [|x l IH]; intros s; simpl.
  - rewrite app_nil_r. by destruct s.
  - rewrite IH. unfold with_messages, append_message; simpl.
    by rewrite <- app_assoc.
Qed.

Lemma message_eta (msg : Message) :
  mkMessage (role msg) (content msg) (timestamp msg) (metadata msg) = msg.
Proof. by destruct msg. Qed.

Lemma map_message_eta (l : list Message) :
  map (fun x => mkMessage (role x) (content x) (timestamp x) (metadata x)) l
  = l.
Proof.
  induction l as [|x l IH]; simpl; [done|]. by rewrite message_eta, IH.
Qed.

Lemma get_session_from_file_lookup (sid : string) (m : MemoryManager)
  (data : Session) :
  files m !! file_path sid = Some (SessionJson data) ->
  _get_session_from_file sid m = Some data.
Proof.
  intros H. unfold _get_session_from_file. rewrite H.
  rewrite fold_append_message. f_equal. simpl.
  destruct data as [i n p md c u msgs ctx]; unfold with_messages; simpl.
  f_equal. apply map_message_eta.
Qed.

Lemma get_session_from_file_inv (sid : string) (m : MemoryManager)
  (s : Session) :
  _get_session_from_file sid m = Some s ->
  files m !! file_path sid = Some (SessionJson s).
Proof.
  intros H. destruct (files m !! file_path sid) as [[|data]|] eqn:E.
  - unfold _get_session_from_file in H. by rewrite E in H.
  - rewrite (get_session_from_file_lookup _ _ _ E) in H. congruence.
  - unfold _get_session_from_file in H. by rewrite E in H.
Qed.

Lemma get_session_from_db_lookup (sid : string) (m : MemoryManager)
  (row : SessionRow) :
  sessions (db m) !! sid = Some row ->
  _get_session_from_db sid m =
  Some (mkSession sid (col_user_name row) (col_user_persona row)
          (col_model row) (col_created_at row) (col_updated_at row)
          (map row_message (select_messages sid (db m))) (col_context row)).
Proof.
  intros H. unfold _get_session_from_db. rewrite H.
  by rewrite (fold_append_message row_message).
Qed.

(** ** The [messages] table *)

Lemma insert_by_id_below (r : MessageRow) (l : list MessageRow) :
  Forall (fun x => col_id r < col_id x) l -> insert_by_id r l = r :: l.
Proof.
  destruct l as [|x t]; [done|]. intros H. simpl.
  apply Forall_cons in H as [H _].
  by rewrite (proj2 (Z.ltb_lt _ _) H).
Qed.

Lemma order_by_id_sorted (l : list MessageRow) :
  StronglySorted (fun a b => col_id a < col_id b) l -> order_by_id l = l.
Proof.
  induction 1 as [|x l Hs IH Hx]; [done|].
  unfold order_by_id in *. simpl. rewrite IH. by apply insert_by_id_below.
Qed.

Lemma StronglySorted_filter_rows (P : MessageRow -> Prop)
  `{forall r, Decision (P r)} (l : list MessageRow) :
  StronglySorted (fun a b => col_id a < col_id b) l ->
  StronglySorted (fun a b => col_id a < col_id b) (filter P l).
Proof.
  induction 1 as [|x l Hs IH Hx]; [constructor|].
  rewrite filter_cons. case_decide; [|done].
  constructor; [done|].
  rewrite Forall_forall in *. intros y Hy.
  apply list_elem_of_filter in Hy as [_ Hy]. by apply Hx.
Qed.

Lemma select_messages_wf (sid : string) (d : Database) :
  db_wf d ->
  select_messages sid d =
  filter (fun r => col_session_id r = sid) (messages_table d).
Proof.
  intros [Hs _]. unfold select_messages.
  by apply order_by_id_sorted, StronglySorted_filter_rows.
Qed.

Lemma insert_message_wf (sid : string) (msg : Message) (d : Database) :
  db_wf d -> db_wf (insert_message sid msg d).
Proof.
  intros [Hs Hb]. split; simpl.
  - apply StronglySorted_app; repeat split.
    + intros x1 x2 H1 H2. apply list_elem_of_singleton in H2 as ->. simpl.
      rewrite Forall_forall in Hb. specialize (Hb _ H1). lia.
    + done.
    + repeat constructor.
  - apply Forall_app. split.
    + eapply Forall_impl; [exact Hb|]. simpl. intros; lia.
    + repeat constructor. simpl. lia.
Qed.

(** ** Behaviour at concrete stores *)

(** C1, at a concrete store of the SQLite backend: session "s1" holds one
    document_context message and two conversational ones;
    clear_session_messages reports success and the session then loads with no
    message at all, so the imported document is lost.  On the same content
    the JSON-file backend keeps exactly the document_context message. *)
Theorem clear_session_messages_db_drops_documents :
  (map role ∘ messages) <$> get_session "s1" (ex_chat true)
    = Some ["document_context"; "user"; "assistant"] /\
  fst (clear_session_messages "s1" (ex_chat true)) = true /\
  messages <$> get_session "s1" (snd (clear_session_messages "s1" (ex_chat true)))
    = Some [] /\
  (map role ∘ messages) <$>
    get_session "s1" (snd (clear_session_messages "s1" (ex_chat false)))
    = Some ["document_context"].
Proof. compute_each. Qed.

(** C3, at a concrete store of the SQLite backend: no session "ghost" is
    stored, yet rename_session("ghost", "s2") returns True; the store is left
    as it was.  The JSON-file backend returns False on the same call. *)
Theorem rename_session_db_missing_reports_success :
  get_session "ghost" (ex_chat true) = None /\
  rename_session "ghost" "s2" (ex_chat true) = (true, ex_chat true) /\
  rename_session "ghost" "s2" (ex_chat false) = (false, ex_chat false).
Proof. compute_each. Qed.

(** C4, at a concrete store of the SQLite backend: create_session("s1") on a
    store that already holds three messages under "s1" returns a session
    with no messages, but loading "s1" right after yields the three old
    messages.  The JSON-file backend loads zero messages, and renaming "s1"
    to itself fails in both backends. *)
Theorem create_session_db_keeps_old_messages :
  let m := ex_chat true in
  let '(session, m') := create_session (Some "s1") "gemini-2.5-flash" m in
  messages session = [] /\
  (map content ∘ messages) <$> get_session (session_id session) m'
    = Some ["Document: note.txt"; "hi"; "hello"] /\
  messages <$>
    get_session "s1"
      (snd (create_session (Some "s1") "gemini-2.5-flash" (ex_chat false)))
    = Some [] /\
  fst (rename_session "s1" "s1" m') = false /\
  fst (rename_session "s1" "s1"
         (snd (create_session (Some "s1") "gemini-2.5-flash" (ex_chat false))))
    = false.
Proof. compute_each. Qed.

(** C5, at a concrete store of the JSON-file backend: add_message appends a
    message to session "s1" and the stored updated_at stays what it was,
    although the clock has moved on.  The SQLite backend stores the new
    clock reading. *)
Theorem add_message_file_keeps_updated_at :
  let m := ex_chat false in
  let m' := snd (add_message "user" "again" (Some "s1") None m) in
  (length ∘ messages) <$> get_session "s1" m = Some 3%nat /\
  (length ∘ messages) <$> get_session "s1" m' = Some 4%nat /\
  updated_at <$> get_session "s1" m = Some "2025-01-01T00:00:01" /\
  updated_at <$> get_session "s1" m' = Some "2025-01-01T00:00:01" /\
  isoformat (clock m (ticks m)) = "2025-01-01T00:00:05" /\
  updated_at <$>
    get_session "s1"
      (snd (add_message "user" "again" (Some "s1") None (ex_chat true)))
    = Some "2025-01-01T00:00:09".
Proof. compute_each. Qed.

Lemma current_update_keeps_store (b : bool) (c : option Session)
  (m : MemoryManager) :
  use_db (if b then set_current_session c m else m) = use_db m /\
  db (if b then set_current_session c m else m) = db m /\
  files (if b then set_current_session c m else m) = files m.
Proof. by destruct b. Qed.

(** ** Renaming a session file *)

Lemma writable_existing (path : string) (fs : gmap string FileContent) :
  is_Some (fs !! path) -> writable path fs = true.
Proof.
  intros H. unfold writable. by rewrite bool_decide_eq_true_2.
Qed.

(** Saving over an existing file, or under a name that can be created. *)
Lemma save_file_run (s : Session) (fs : gmap string FileContent) :
  writable (file_path (session_id s)) fs = true ->
  run_ops (save_file_ops s) fs =
  (<[file_path (session_id s) := SessionJson s]> fs, true).
Proof.
  intros H. unfold save_file_ops. cbn [run_ops apply_op]. rewrite H.
  rewrite lookup_insert_eq. by rewrite insert_insert_eq.
Qed.

Lemma first_directory_has_slash (name d : string) :
  first_directory name = Some d -> has_slash name = true.
Proof.
  revert d. induction name as [|c name IH]; intros d H; [done|].
  cbn [first_directory has_slash] in *.
  destruct (Ascii.eqb c "/"); [done|]. cbn.
  destruct (first_directory name) as [d'|]; [by eapply IH | done].
Qed.

Lemma in_missing_directory_not_plain (name : string) :
  in_missing_directory name = true -> plain_name name = false.
Proof.
  unfold in_missing_directory, plain_name.
  destruct (first_directory name) as [d|] eqn:E; [|done]. intros _.
  by rewrite (first_directory_has_slash _ _ E).
Qed.

Lemma rename_file_run (old new : string) (data : Session)
  (fs : gmap string FileContent) :
  is_Some (fs !! file_path old) ->
  plain_name (file_path new) = true ->
  run_ops (rename_file_ops old new data) fs =
    (<[file_path new := SessionJson (with_session_id new data)]>
       (delete (file_path old) fs), true) /\
  trace_ops (rename_file_ops old new data) fs =
    [ <[file_path old := EmptyFile]> fs;
      <[file_path old := SessionJson (with_session_id new data)]> fs;
      <[file_path new := SessionJson (with_session_id new data)]>
        (delete (file_path old) fs) ].
Proof.
  intros Hold Hplain. unfold rename_file_ops.
  cbn [run_ops trace_ops apply_op].
  rewrite (writable_existing _ _ Hold). rewrite !lookup_insert_eq.
  rewrite !insert_insert_eq.
  assert (Hw : writable (file_path new)
                 (<[file_path old := SessionJson (with_session_id new data)]>
                    fs) = true).
  { unfold writable. rewrite Hplain. apply orb_true_r. }
  rewrite Hw, delete_insert_eq. done.
Qed.

Lemma rename_file_run_fails (old new : string) (data : Session)
  (fs : gmap string FileContent) :
  is_Some (fs !! file_path old) ->
  fs !! file_path new = None ->
  in_missing_directory (file_path new) = true ->
  run_ops (rename_file_ops old new data) fs =
    (<[file_path old := SessionJson (with_session_id new data)]> fs, false).
Proof.
  intros Hold Hnew Hdir. unfold rename_file_ops.
  cbn [run_ops apply_op].
  rewrite (writable_existing _ _ Hold). rewrite !lookup_insert_eq.
  rewrite !insert_insert_eq.
  assert (Hne : file_path old <> file_path new).
  { intros E. rewrite E in Hold. rewrite Hnew in Hold. by destruct Hold. }
  assert (Hw : writable (file_path new)
                 (<[file_path old := SessionJson (with_session_id new data)]>
                    fs) = false).
  { unfold writable. rewrite (in_missing_directory_not_plain _ Hdir).
    rewrite bool_decide_eq_false_2; [done|].
    rewrite lookup_insert_ne by done. rewrite Hnew. by intros [? ?]. }
  by rewrite Hw.
Qed.

Lemma ex_chat_files :
  files (ex_chat false) = {[ file_path "s1" := SessionJson ex_session ]}.
Proof. vm_compute. reflexivity. Qed.




Lemma save_session_to_file_files (s : Session) (m : MemoryManager) :
  writable (file_path (session_id s)) (files m) = true ->
  files (_save_session_to_file s m) =
  <[file_path (session_id s) := SessionJson s]> (files m).
Proof.
  intros H. unfold _save_session_to_file. cbn [files set_files].
  by rewrite save_file_run.
Qed.

(** ** Conversation history *)

Lemma history_of_session (sid : string) (limit : option Z)
  (m : MemoryManager) :
  truthy sid = true ->
  get_conversation_history (Some sid) limit m =
  match get_session sid m with
  | None => []
  | Some session =>
      map (fun msg => (role msg, content msg))
        match limit with
        | Some n => if n =? 0 then messages session
                    else py_slice_from (- n) (messages session)
        | None => messages session
        end
  end.
Proof.
  intros Ht. unfold get_conversation_history, py_or.
  change (truthy_opt (Some sid)) with (truthy sid). rewrite Ht.
  change (truthy_opt (Some sid)) with (truthy sid). by rewrite Ht.
Qed.

Lemma add_message_unfold (r c sid : string) (md : option Dict)
  (m : MemoryManager) :
  truthy sid = true ->
  snd (add_message r c (Some sid) md m) =
  let msg := mkMessage r c (isoformat (clock m (ticks m))) (default [] md) in
  let m1 := set_ticks (S (ticks m)) m in
  let m2 :=
    if use_db m then _add_message_to_db sid msg m1
    else match get_session sid m1 with
         | Some session => _save_session_to_file (append_message session msg) m1
         | None => m1
         end in
  if current_is sid m2 then
    set_current_session
      ((fun c => append_message c msg) <$> current_session m2) m2
  else m2.
Proof.
  intros Ht. unfold add_message, py_or.
  change (truthy_opt (Some sid)) with (truthy sid). rewrite Ht.
  change (truthy_opt (Some sid)) with (truthy sid). rewrite Ht.
  reflexivity.
Qed.

(** What one [add_message] call does to the store. *)
Lemma add_message_store (r c sid : string) (md : option Dict)
  (m : MemoryManager) :
  truthy sid = true ->
  use_db (snd (add_message r c (Some sid) md m)) = use_db m /\
  (use_db m = true ->
   db (snd (add_message r c (Some sid) md m)) =
   update_updated_at (isoformat (clock m (S (ticks m)))) sid
     (insert_message sid
        (mkMessage r c (isoformat (clock m (ticks m))) (default [] md))
        (db m))) /\
  (use_db m = false ->
   files (snd (add_message r c (Some sid) md m)) =
   match get_session sid m with
   | Some session =>
       files (_save_session_to_file
                (append_message session
                   (mkMessage r c (isoformat (clock m (ticks m)))
                      (default [] md))) m)
   | None => files m
   end).
Proof.
  intros Ht. rewrite add_message_unfold by done. cbv zeta.
  match goal with
  | |- context [if current_is ?s ?x then set_current_session ?c ?x else ?x] =>
      destruct (current_update_keeps_store (current_is s x) c x)
        as (H1 & H2 & H3); rewrite H1, H2, H3; clear H1 H2 H3
  end.
  destruct (use_db m) eqn:Hdb.
  - split; [done|]. split; [done|]. intros Hf; discriminate.
  - unfold get_session. cbn [use_db set_ticks]. rewrite Hdb.
    unfold _get_session_from_file. cbn [files set_ticks].
    destruct (files m !! file_path sid) as [[|data]|];
      (split; [done|]; split; [intros Hf; discriminate | done]).
Qed.

Lemma add_message_history (sid : string) (call : AddCall)
  (m : MemoryManager) :
  truthy sid = true ->
  session_stored sid m ->
  let m' := snd (add_message (call_role call) (call_content call) (Some sid)
                   (call_metadata call) m) in
  session_stored sid m' /\
  get_conversation_history (Some sid) None m' =
  (get_conversation_history (Some sid) None m ++
   [(call_role call, call_content call)])%list.
Proof.
  intros Ht Hst m'.
  destruct (add_message_store (call_role call) (call_content call) sid
              (call_metadata call) m Ht) as (Hu & Hd & Hf).
  fold m' in Hu, Hd, Hf.
  rewrite !history_of_session by done.
  unfold session_stored in *. unfold get_session. rewrite Hu.
  destruct (use_db m) eqn:Hdb.
  - destruct Hst as [Hwf [row Hrow]]. specialize (Hd eq_refl).
    set (msg := mkMessage _ _ _ _) in Hd.
    assert (Hwf' : db_wf (db m')).
    { rewrite Hd. apply (insert_message_wf sid msg) in Hwf.
      destruct Hwf as [H1 H2]. by split. }
    assert (Hrow' : sessions (db m') !! sid =
                    Some (with_updated_at
                            (isoformat (clock m (S (ticks m)))) row)).
    { rewrite Hd. simpl. by rewrite lookup_alter_eq, Hrow. }
    split; [split; [done | by eexists]|].
    rewrite (get_session_from_db_lookup _ _ _ Hrow).
    rewrite (get_session_from_db_lookup _ _ _ Hrow'). simpl.
    rewrite !select_messages_wf by done.
    rewrite Hd. simpl. rewrite filter_app, map_app, map_app.
    rewrite filter_cons_True by done. done.
  - destruct Hst as [data [Hfile Hid]]. specialize (Hf eq_refl).
    unfold get_session in Hf. rewrite Hdb in Hf.
    rewrite (get_session_from_file_lookup _ _ _ Hfile) in Hf.
    rewrite (get_session_from_file_lookup _ _ _ Hfile).
    assert (Hfile' : files m' !! file_path sid =
                     Some (SessionJson
                             (append_message data
                                (mkMessage (call_role call) (call_content call)
                                   (isoformat (clock m (ticks m)))
                                   (default [] (call_metadata call)))))).
    { rewrite Hf, save_session_to_file_files; cbn [session_id append_message];
        rewrite Hid; [apply lookup_insert_eq|].
      apply writable_existing. by eexists. }
    split; [eexists; split; [exact Hfile' | done]|].
    rewrite (get_session_from_file_lookup _ _ _ Hfile'). simpl.
    by rewrite map_app.
Qed.

Lemma add_messages_history (sid : string) (calls : list AddCall)
  (m : MemoryManager) :
  truthy sid = true ->
  session_stored sid m ->
  session_stored sid (add_messages sid calls m) /\
  get_conversation_history (Some sid) None (add_messages sid calls m) =
  (get_conversation_history (Some sid) None m ++
   map (fun c => (call_role c, call_content c)) calls)%list.
Proof.
  intros Ht. revert m. induction calls as [|c calls IH]; intros m Hst.
  - simpl. by rewrite app_nil_r.
  - destruct (add_message_history sid c m Ht Hst) as [Hst' Hh].
    destruct (IH _ Hst') as [Hst'' Hh'].
    split; [exact Hst''|].
    unfold add_messages in *. simpl. rewrite Hh', Hh.
    by rewrite <- app_assoc.
Qed.

Lemma py_slice_last_n {A} (n : Z) (l : list A) :
  0 < n -> py_slice_from (- n) l = last_n (Z.to_nat n) l.
Proof.
  intros Hn. unfold py_slice_from, last_n.
  rewrite (proj2 (Z.ltb_lt (- n) 0)) by lia. f_equal. lia.
Qed.

Lemma last_n_map {A B} (f : A -> B) (n : nat) (l : list A) :
  map f (last_n n l) = last_n n (map f l).
Proof.
  unfold last_n. rewrite length_map. apply (fmap_drop f).
Qed.

(** C6, as stated, fails at limit 0: the three messages of session "s1" were
    added in order, and get_conversation_history with limit=0 returns all
    three of them instead of the last zero. *)
Lemma get_conversation_history_limit_zero :
  get_conversation_history (Some "s1") (Some 0) (ex_chat true) =
    [("document_context", "Document: note.txt"); ("user", "hi");
     ("assistant", "hello")] /\
  get_conversation_history (Some "s1") (Some 0) (ex_chat true) <>
    last_n 0 (get_conversation_history (Some "s1") None (ex_chat true)).
Proof. split; [vm_compute; reflexivity | vm_compute; discriminate]. Qed.

(** C6, amended: for a stored session with a non-empty id, in either
    backend, after any sequence of add_message calls on it
    get_conversation_history returns the (role, content) pairs of the
    messages it held before followed by those of the calls, in call order,
    when given no limit or the limit 0; and for every limit N >= 1 it
    returns exactly the last N of them, or all when there are fewer. *)
Theorem get_conversation_history_insertion_order (m : MemoryManager)
  (sid : string) (calls : list AddCall) (N : Z) :
  truthy sid = true ->
  session_stored sid m ->
  let m' := add_messages sid calls m in
  let all :=
    (get_conversation_history (Some sid) None m ++
     map (fun c => (call_role c, call_content c)) calls)%list in
  get_conversation_history (Some sid) None m' = all /\
  get_conversation_history (Some sid) (Some 0) m' = all /\
  (0 < N ->
   get_conversation_history (Some sid) (Some N) m' = last_n (Z.to_nat N) all).
Proof.
  intros Ht Hst m' all.
  destruct (add_messages_history sid calls m Ht Hst) as [_ Hall].
  fold m' in Hall. fold all in Hall.
  split; [exact Hall|]. rewrite <- Hall.
  rewrite !history_of_session by done.
  destruct (get_session sid m') as [session|]; simpl.
  - split; [done|]. intros HN.
    rewrite (proj2 (Z.eqb_neq N 0)) by lia.
    rewrite py_slice_last_n by done. apply last_n_map.
  - split; [done|]. intros _. unfold last_n. by rewrite drop_nil.
Qed.

(** The amended C6 on a fresh session "s1" of each backend, with the three
    calls of [ex_calls] and the limit 2. *)
Lemma get_conversation_history_insertion_order_witness :
  get_conversation_history (Some "s1") (Some 2)
    (add_messages "s1" ex_calls
       (snd (create_session (Some "s1") "gemini-2.5-flash" (ex_empty true))))
    = [("user", "hi"); ("assistant", "hello")] /\
  get_conversation_history (Some "s1") (Some 2)
    (add_messages "s1" ex_calls
       (snd (create_session (Some "s1") "gemini-2.5-flash" (ex_empty false))))
    = [("user", "hi"); ("assistant", "hello")].
Proof.
  split.
  - refine (proj2 (proj2 (get_conversation_history_insertion_order
      (snd (create_session (Some "s1") "gemini-2.5-flash" (ex_empty true)))
      "s1" ex_calls 2 eq_refl _)) _); [|lia].
    vm_compute. split; [split; constructor | eexists; reflexivity].
  - refine (proj2 (proj2 (get_conversation_history_insertion_order
      (snd (create_session (Some "s1") "gemini-2.5-flash" (ex_empty false)))
      "s1" ex_calls 2 eq_refl _)) _); [|lia].
    vm_compute. eexists. split; reflexivity.
Defined.

End MemoryProofs.

(** * Verification of chromadb_rag.py *)

Module RagProofs.
Import Rag RagSpec.

(** ** The collection *)

Lemma add_new_keeps (recs c : list ChunkRecord) (x : string) :
  x ∈ stored_ids c -> x ∈ stored_ids (add_new recs c).
Proof.
  revert c. induction recs as [|r recs IH]; intros c Hx; [done|].
  simpl. case_bool_decide; apply IH; [done|].
  unfold stored_ids. rewrite map_app. apply elem_of_app. by left.
Qed.

Lemma add_new_covers (recs c : list ChunkRecord) (r : ChunkRecord) :
  r ∈ recs -> chunk_id r ∈ stored_ids (add_new recs c).
Proof.
  revert c. induction recs as [|r' recs IH]; intros c Hr.
  - by apply elem_of_nil in Hr.
  - apply elem_of_cons in Hr as [->|Hr]; simpl.
    + case_bool_decide as Hin; apply add_new_keeps; [done|].
      unfold stored_ids. rewrite map_app. apply elem_of_app. right.
      simpl. apply list_elem_of_singleton. done.
    + case_bool_decide; by apply IH.
Qed.

Lemma add_new_present (recs c : list ChunkRecord) :
  (forall r, r ∈ recs -> chunk_id r ∈ stored_ids c) -> add_new recs c = c.
Proof.
  induction recs as [|r recs IH]; intros H; [done|].
  simpl. rewrite bool_decide_eq_true_2.
  - apply IH. intros r' Hr'. apply H. by apply list_elem_of_further.
  - apply H. apply list_elem_of_here.
Qed.

Lemma add_new_NoDup (recs c : list ChunkRecord) :
  NoDup (stored_ids c) -> NoDup (stored_ids (add_new recs c)).
Proof.
  revert c. induction recs as [|r recs IH]; intros c Hc; [done|].
  simpl. case_bool_decide as Hin; apply IH; [done|].
  unfold stored_ids in *. rewrite map_app. apply NoDup_app.
  split; [done|]. split; [|apply NoDup_singleton].
  intros x Hx Hx'. simpl in Hx'. apply list_elem_of_singleton in Hx'.
  by subst.
Qed.

Lemma collection_add_single (i d : string) (e : Embedding)
  (mt : gmap string MetaValue) (c : list ChunkRecord) :
  collection_add [i] [e] [d] [mt] c =
  Some (if bool_decide (i ∈ stored_ids c) then c
        else c ++ [mkChunkRecord i d e mt]).
Proof.
  unfold collection_add. rewrite bool_decide_eq_true_2.
  - unfold stored_ids. simpl.
    by destruct (bool_decide (i ∈ map chunk_id c)).
  - repeat split; try done. apply NoDup_singleton.
Qed.

Lemma add_individually_collection (emb : Embeddings) (chunks : list Chunk)
  (c : list ChunkRecord) :
  snd (add_individually emb chunks c) = fold_left (add_one emb) chunks c.
Proof.
  unfold add_individually. generalize O. revert c.
  induction chunks as [|ch chunks IH]; intros c n; [done|].
  cbn [fold_left]. cbv beta iota. unfold add_one at 2.
  destruct (embed_query emb (document ch)) as [e|]; [|apply IH].
  rewrite collection_add_single. case_bool_decide; apply IH.
Qed.

Lemma add_one_keeps (emb : Embeddings) (c : list ChunkRecord) (ch : Chunk)
  (x : string) :
  x ∈ stored_ids c -> x ∈ stored_ids (add_one emb c ch).
Proof.
  intros Hx. unfold add_one. destruct (embed_query emb (document ch)); [|done].
  case_bool_decide; [done|].
  unfold stored_ids. rewrite map_app. apply elem_of_app. by left.
Qed.

Lemma fold_add_one_keeps (emb : Embeddings) (chunks : list Chunk)
  (c : list ChunkRecord) (x : string) :
  x ∈ stored_ids c -> x ∈ stored_ids (fold_left (add_one emb) chunks c).
Proof.
  revert c. induction chunks as [|ch chunks IH]; intros c Hx; [done|].
  simpl. by apply IH, add_one_keeps.
Qed.

(** After the fallback loop every chunk that could be embedded is stored. *)
Lemma fold_add_one_covers (emb : Embeddings) (chunks : list Chunk)
  (c : list ChunkRecord) (ch : Chunk) :
  ch ∈ chunks -> is_Some (embed_query emb (document ch)) ->
  id ch ∈ stored_ids (fold_left (add_one emb) chunks c).
Proof.
  revert c. induction chunks as [|ch' chunks IH]; intros c Hin He.
  - by apply elem_of_nil in Hin.
  - apply elem_of_cons in Hin as [->|Hin]; simpl; [|by apply IH].
    apply fold_add_one_keeps. unfold add_one. destruct He as [e ->].
    case_bool_decide; [done|].
    unfold stored_ids. rewrite map_app. apply elem_of_app. right.
    simpl. by apply list_elem_of_singleton.
Qed.

Lemma fold_add_one_present (emb : Embeddings) (chunks : list Chunk)
  (c : list ChunkRecord) :
  (forall ch, ch ∈ chunks -> is_Some (embed_query emb (document ch)) ->
              id ch ∈ stored_ids c) ->
  fold_left (add_one emb) chunks c = c.
Proof.
  induction chunks as [|ch chunks IH]; intros H; [done|].
  simpl. assert (Hc : add_one emb c ch = c).
  { unfold add_one. destruct (embed_query emb (document ch)) eqn:E; [|done].
    rewrite bool_decide_eq_true_2; [done|].
    apply H; [apply list_elem_of_here | by rewrite E]. }
  rewrite Hc. apply IH. intros ch' Hin. apply H.
  by apply list_elem_of_further.
Qed.

Lemma fold_add_one_NoDup (emb : Embeddings) (chunks : list Chunk)
  (c : list ChunkRecord) :
  NoDup (stored_ids c) ->
  NoDup (stored_ids (fold_left (add_one emb) chunks c)).
Proof.
  revert c. induction chunks as [|ch chunks IH]; intros c Hc; [done|].
  simpl. apply IH. unfold add_one.
  destruct (embed_query emb (document ch)); [|done].
  case_bool_decide as Hin; [done|].
  unfold stored_ids in *. rewrite map_app. apply NoDup_app.
  split; [done|]. split; [|apply NoDup_singleton].
  intros x Hx Hx'. simpl in Hx'. apply list_elem_of_singleton in Hx'.
  by subst.
Qed.

Lemma zip_records_elem (ids : list string) (embs : list Embedding)
  (docs : list string) (metas : list (gmap string MetaValue))
  (r : ChunkRecord) :
  r ∈ zip_records ids embs docs metas -> chunk_id r ∈ ids.
Proof.
  revert embs docs metas.
  induction ids as [|i ids IH]; intros [|e embs] [|d docs] [|mt metas] H;
    simpl in H; try by apply elem_of_nil in H.
  apply elem_of_cons in H as [->|H]; simpl.
  - apply list_elem_of_here.
  - apply list_elem_of_further. by eapply IH.
Qed.

Lemma import_into_idempotent (emb : Embeddings) (chunks : list Chunk)
  (c : list ChunkRecord) :
  import_into emb chunks (import_into emb chunks c) = import_into emb chunks c.
Proof.
  unfold import_into, collection_add.
  destruct (embed_documents emb (map document chunks)) as [embs|].
  - case_bool_decide.
    + apply add_new_present. intros r Hr. by apply add_new_covers.
    + apply fold_add_one_present. intros ch Hin He.
      by apply fold_add_one_covers.
  - apply fold_add_one_present. intros ch Hin He.
    by apply fold_add_one_covers.
Qed.

Lemma import_into_NoDup (emb : Embeddings) (chunks : list Chunk)
  (c : list ChunkRecord) :
  NoDup (stored_ids c) -> NoDup (stored_ids (import_into emb chunks c)).
Proof.
  intros Hc. unfold import_into, collection_add.
  destruct (embed_documents emb (map document chunks)) as [embs|].
  - case_bool_decide; [by apply add_new_NoDup | by apply fold_add_one_NoDup].
  - by apply fold_add_one_NoDup.
Qed.

Section Importing.

Variable sha256_hexdigest : string -> string.

Local Abbreviation chunks_of_document := (chunks_of_document sha256_hexdigest).
Local Abbreviation chunks_to_add := (chunks_to_add sha256_hexdigest).
Local Abbreviation add_documents := (add_documents sha256_hexdigest).

(** ** Chunk ids *)

Lemma imap_fmap_const {A B C} (f : nat -> A -> B) (g : B -> C) (h : A -> C)
  (l : list A) :
  (forall i x, g (f i x) = h x) -> map g (imap f l) = map h l.
Proof.
  revert f. induction l as [|x l IH]; intros f Hf; [done|].
  rewrite imap_cons. simpl. rewrite Hf. f_equal. apply IH.
  intros i y. apply Hf.
Qed.

Lemma chunks_of_document_texts (splitter : string -> list string)
  (doc : DocumentInput) :
  map document (chunks_of_document splitter doc) =
  chunk_texts splitter (doc_content doc).
Proof.
  unfold Rag.chunks_of_document, chunk_texts.
  destruct (truthy (doc_content doc)); [|done].
  rewrite (imap_fmap_const _ _ (fun x => x)) by done. apply map_id.
Qed.

Lemma chunks_of_document_ids (splitter : string -> list string)
  (doc : DocumentInput) :
  map id (chunks_of_document splitter doc) =
  map (fun text => "doc_" +:+ sha256_hexdigest text)
    (chunk_texts splitter (doc_content doc)).
Proof.
  unfold Rag.chunks_of_document, chunk_texts.
  destruct (truthy (doc_content doc)); [|done].
  by apply imap_fmap_const.
Qed.

Lemma chunks_to_add_texts (splitter : string -> list string)
  (docs : list DocumentInput) :
  map document (chunks_to_add splitter docs) =
  flat_map (chunk_texts splitter) (map doc_content docs).
Proof.
  unfold Rag.chunks_to_add. induction docs as [|d docs IH]; [done|].
  simpl. by rewrite map_app, chunks_of_document_texts, IH.
Qed.

Lemma chunks_to_add_ids (splitter : string -> list string)
  (docs : list DocumentInput) :
  map id (chunks_to_add splitter docs) =
  map (fun text => "doc_" +:+ sha256_hexdigest text)
    (map document (chunks_to_add splitter docs)).
Proof.
  unfold Rag.chunks_to_add. induction docs as [|d docs IH]; [done|].
  simpl. rewrite !map_app, IH.
  by rewrite chunks_of_document_ids, chunks_of_document_texts.
Qed.

(** ** Importing documents *)

Lemma import_into_nil (emb : Embeddings) (c : list ChunkRecord) :
  import_into emb [] c = c.
Proof.
  unfold import_into. cbn [map fold_left].
  destruct (embed_documents emb []); [|done].
  unfold collection_add. rewrite bool_decide_eq_false_2; [done|].
  by intros [H _].
Qed.

Lemma add_documents_result (docs : list DocumentInput) (rag : ChromaDBRAG) :
  embeddings (snd (add_documents docs rag)) = embeddings rag /\
  text_splitter (snd (add_documents docs rag)) = text_splitter rag /\
  collection (snd (add_documents docs rag)) =
  match embeddings rag with
  | Some emb =>
      import_into emb (chunks_to_add (text_splitter rag) docs)
        (collection rag)
  | None => collection rag
  end.
Proof.
  unfold Rag.add_documents.
  destruct docs as [|d docs].
  { cbn. split; [done|]. split; [done|].
    destruct (embeddings rag); [|done]. by rewrite import_into_nil. }
  destruct (embeddings rag) as [emb|] eqn:He; [|done].
  destruct (chunks_to_add (text_splitter rag) (d :: docs))
    as [|ch chunks] eqn:Ec.
  { cbn. rewrite He. split; [done|]. split; [done|].
    by rewrite import_into_nil. }
  unfold import_into.
  destruct (match embed_documents emb (map document (ch :: chunks)) with
            | Some embs => collection_add (map id (ch :: chunks)) embs
                             (map document (ch :: chunks))
                             (map metadata (ch :: chunks)) (collection rag)
            | None => None
            end) as [c'|] eqn:E.
  - cbn [snd embeddings text_splitter collection set_collection].
    by rewrite He.
  - rewrite <- add_individually_collection.
    destruct (add_individually emb (ch :: chunks) (collection rag)) as [n c'].
    cbn [snd embeddings text_splitter collection set_collection].
    by rewrite He.
Qed.

(** C7: the id of every chunk is "doc_" followed by the SHA-256 digest of
    its text, so the ids add_documents computes depend on the contents of
    the documents alone (not on source, metadata or the state of the index);
    importing the same documents a second time leaves the collection exactly
    as the first import left it, and a collection without repeated ids has
    none after the two imports either. *)
Theorem add_documents_reimport_idempotent (docs docs' : list DocumentInput)
  (rag : ChromaDBRAG) :
  Forall (fun ch => id ch = "doc_" +:+ sha256_hexdigest (document ch))
    (chunks_to_add (text_splitter rag) docs) /\
  (map doc_content docs = map doc_content docs' ->
   map id (chunks_to_add (text_splitter rag) docs) =
   map id (chunks_to_add (text_splitter rag) docs')) /\
  let rag1 := snd (add_documents docs rag) in
  let rag2 := snd (add_documents docs rag1) in
  map id (chunks_to_add (text_splitter rag1) docs) =
    map id (chunks_to_add (text_splitter rag) docs) /\
  collection rag2 = collection rag1 /\
  (NoDup (stored_ids (collection rag)) ->
   NoDup (stored_ids (collection rag2))).
Proof.
  split; [|split].
  - pose proof (chunks_to_add_ids (text_splitter rag) docs) as H.
    induction (chunks_to_add (text_splitter rag) docs) as [|ch l IH];
      [constructor|].
    simpl in H. injection H as H1 H2. constructor; [done | by apply IH].
  - intros E. rewrite !chunks_to_add_ids, !chunks_to_add_texts. by rewrite E.
  - intros rag1 rag2.
    destruct (add_documents_result docs rag) as (He1 & Hs1 & Hc1).
    destruct (add_documents_result docs rag1) as (He2 & Hs2 & Hc2).
    fold rag1 in He1, Hs1, Hc1, He2, Hs2, Hc2. fold rag2 in He2, Hs2, Hc2.
    split; [by rewrite Hs1|].
    rewrite Hc2, He1, Hs1, Hc1.
    destruct (embeddings rag) as [emb|].
    + split; [apply import_into_idempotent|].
      intros Hn. rewrite import_into_idempotent. by apply import_into_NoDup.
    + done.
Qed.

End Importing.

(** ** Querying *)

Section Query.

Variable cosine_distance : Embedding -> Embedding -> Q.

Local Abbreviation nearest := (nearest cosine_distance).
Local Abbreviation query := (query cosine_distance).

Lemma insert_by_distance_elem (x y : ChunkRecord * Q)
  (l : list (ChunkRecord * Q)) :
  y ∈ insert_by_distance x l <-> y = x \/ y ∈ l.
Proof.
  induction l as [|z t IH]; simpl.
  - rewrite list_elem_of_singleton. split; [by left|].
    intros [H|H]; [done | by apply elem_of_nil in H].
  - destruct (Qle_bool (snd x) (snd z)).
    + by rewrite elem_of_cons.
    + rewrite !elem_of_cons, IH. tauto.
Qed.

Lemma insert_by_distance_ascending (x : ChunkRecord * Q)
  (l : list (ChunkRecord * Q)) :
  ascending l -> ascending (insert_by_distance x l).
Proof.
  unfold ascending. induction 1 as [|z t Hs IH Hz]; simpl.
  - repeat constructor.
  - destruct (Qle_bool (snd x) (snd z)) eqn:E.
    + apply Qle_bool_iff in E. constructor; [by constructor|].
      constructor; [done|]. eapply Forall_impl; [exact Hz|].
      simpl. intros w Hw. by apply Qle_trans with (snd z).
    + constructor; [done|]. apply Forall_forall. intros w Hw.
      apply insert_by_distance_elem in Hw as [->|Hw].
      * apply Qlt_le_weak, Qnot_le_lt. intros Hle.
        apply Qle_bool_iff in Hle. congruence.
      * rewrite Forall_forall in Hz. by apply Hz.
Qed.

Lemma nearest_ascending (q : Embedding) (c : list ChunkRecord) :
  ascending (nearest q c).
Proof.
  unfold Rag.nearest. induction c as [|r c IH]; simpl; [constructor|].
  by apply insert_by_distance_ascending.
Qed.

Lemma nearest_elem (q : Embedding) (c : list ChunkRecord)
  (h : ChunkRecord * Q) :
  h ∈ nearest q c ->
  fst h ∈ c /\ snd h = cosine_distance q (chunk_embedding (fst h)).
Proof.
  unfold Rag.nearest. induction c as [|r c IH]; simpl; intros H.
  - by apply elem_of_nil in H.
  - apply insert_by_distance_elem in H as [->|H]; simpl.
    + split; [apply list_elem_of_here | done].
    + destruct (IH H) as [H1 H2]. split; [by apply list_elem_of_further|done].
Qed.

Lemma take_ascending (n : nat) (l : list (ChunkRecord * Q)) :
  ascending l -> ascending (take n l).
Proof.
  unfold ascending. intros H. rewrite <- (take_drop n l) in H.
  by apply StronglySorted_app_1_l in H.
Qed.

(** The formatting loop reads the three parallel lists by position; on the
    lists the collection returns this is a map over the records. *)
Lemma imap_parallel {X D M R} (fd : X -> string) (fq : X -> D) (fm : X -> M)
  (F : option D -> option M -> string -> R) (hs : list X) :
  imap (fun i doc => F (map fq hs !! i) (map fm hs !! i) doc) (map fd hs) =
  map (fun h => F (Some (fq h)) (Some (fm h)) (fd h)) hs.
Proof.
  induction hs as [|h hs IH]; [done|].
  cbn [map]. rewrite imap_cons. f_equal. exact IH.
Qed.

Lemma omap_id_map {A B} (g : A -> option B) (l : list A) :
  omap (fun x => x) (map g l) = omap g l.
Proof.
  induction l as [|a l IH]; [done|].
  change (omap (fun x => x) (map g (a :: l)))
    with (match g a with
          | Some y => y :: omap (fun x => x) (map g l)
          | None => omap (fun x => x) (map g l)
          end).
  change (omap g (a :: l))
    with (match g a with Some y => y :: omap g l | None => omap g l end).
  by rewrite IH.
Qed.

Lemma format_hits (threshold : Q) (hs : list (ChunkRecord * Q)) :
  omap (fun x => x)
    (imap
       (format_hit
          (mkQueryResult (Some [map (fun h => chunk_document (fst h)) hs])
             (Some [map snd hs])
             (Some [map (fun h => chunk_metadata (fst h)) hs]))
          threshold)
       (map (fun h => chunk_document (fst h)) hs)) =
  omap (hit_of threshold) hs.
Proof.
  unfold format_hit, distance_at, metadata_at. simpl.
  rewrite (imap_parallel (fun h => chunk_document (fst h)) snd
             (fun h => chunk_metadata (fst h))
             (fun od om doc =>
                if Qltb (1 - default 0%Q od) threshold then None
                else Some (mkHit doc (1 - default 0%Q od) (default 0%Q od)
                             (default ∅ om)))).
  exact (omap_id_map (hit_of threshold) hs).
Qed.

Lemma query_hits (query_text : string) (top_k : nat) (threshold : Q)
  (rag : ChromaDBRAG) :
  query query_text top_k threshold rag = [] \/
  exists emb q,
    embeddings rag = Some emb /\ embed_query emb query_text = Some q /\
    query query_text top_k threshold rag =
    omap (hit_of threshold) (take top_k (nearest q (collection rag))).
Proof.
  unfold Rag.query.
  destruct (embeddings rag) as [emb|] eqn:He; [|by left].
  destruct (embed_query emb query_text) as [q|] eqn:Hq; [|by left].
  destruct top_k as [|k]; [by left|]. right. exists emb, q.
  split; [done|]. split; [done|].
  unfold collection_query. cbn [res_documents]. apply format_hits.
Qed.

Lemma hit_of_Some (threshold : Q) (h : ChunkRecord * Q) (y : Hit) :
  hit_of threshold h = Some y ->
  hit_similarity y = (1 - snd h)%Q /\ hit_distance y = snd h /\
  (threshold <= hit_similarity y)%Q.
Proof.
  unfold hit_of, Qltb.
  destruct (Qle_bool threshold (1 - snd h)) eqn:E; simpl; [|discriminate].
  intros [= <-]. simpl. repeat split. by apply Qle_bool_iff.
Qed.

Lemma omap_hit_of_descending (threshold : Q) (hs : list (ChunkRecord * Q)) :
  ascending hs -> descending (omap (hit_of threshold) hs).
Proof.
  unfold ascending, descending.
  induction 1 as [|h hs Hs IH Hh]; simpl; [constructor|].
  destruct (hit_of threshold h) as [y|] eqn:E; [|done].
  constructor; [done|]. apply Forall_forall. intros y' Hy'.
  apply list_elem_of_omap in Hy' as (h' & Hin & E').
  rewrite Forall_forall in Hh. specialize (Hh _ Hin).
  apply hit_of_Some in E as (-> & _ & _).
  apply hit_of_Some in E' as (-> & _ & _). lra.
Qed.

Lemma length_omap_le {A B} (f : A -> option B) (l : list A) :
  (length (omap f l) <= length l)%nat.
Proof.
  induction l as [|x l IH]; [done|].
  change (omap f (x :: l))
    with (match f x with Some y => y :: omap f l | None => omap f l end).
  destruct (f x); cbn [length]; lia.
Qed.

Lemma omap_all_None {A B} (f : A -> option B) (l : list A) :
  (forall x, x ∈ l -> f x = None) -> omap f l = [].
Proof.
  induction l as [|x l IH]; intros H; [done|].
  change (omap f (x :: l))
    with (match f x with Some y => y :: omap f l | None => omap f l end).
  rewrite H by apply list_elem_of_here.
  apply IH. intros y Hy. apply H. by apply list_elem_of_further.
Qed.

(** C8: for every query, the list returned is in order of descending
    similarity; every result has similarity 1 - distance and that similarity
    is not below the threshold; there are at most top_k results; and the
    list is empty when no stored chunk reaches the threshold. *)
Theorem query_ranked_and_filtered (query_text : string) (top_k : nat)
  (threshold : Q) (rag : ChromaDBRAG) :
  let hits := query query_text top_k threshold rag in
  descending hits /\
  Forall (fun y => hit_similarity y = (1 - hit_distance y)%Q /\
                   (threshold <= hit_similarity y)%Q) hits /\
  (length hits <= top_k)%nat /\
  ((forall emb q r,
      embeddings rag = Some emb -> embed_query emb query_text = Some q ->
      r ∈ collection rag ->
      (1 - cosine_distance q (chunk_embedding r) < threshold)%Q) ->
   hits = []).
Proof.
  intros hits. subst hits.
  destruct (query_hits query_text top_k threshold rag)
    as [->|(emb & q & He & Hq & ->)].
  { repeat split; try constructor. simpl. lia. }
  split; [|split; [|split]].
  - apply omap_hit_of_descending, take_ascending, nearest_ascending.
  - apply Forall_forall. intros y Hy.
    apply list_elem_of_omap in Hy as (h & _ & E).
    apply hit_of_Some in E as (E1 & E2 & E3). rewrite E2. by split.
  - etrans; [apply length_omap_le|]. rewrite length_take. lia.
  - intros Hnone. apply omap_all_None. intros h0 Hin.
    apply subseteq_take in Hin. apply nearest_elem in Hin as [Hin Hd].
    specialize (Hnone emb q (fst h0) He Hq Hin). rewrite <- Hd in Hnone.
    unfold hit_of, Qltb.
    destruct (Qle_bool threshold (1 - snd h0)) eqn:E; [|done].
    apply Qle_bool_iff in E. lra.
Qed.

End Query.

(** C8 on the concrete index: with threshold 3/10 the query returns both
    stored chunks, the nearer first; with threshold 4/10 it drops the
    farther one; with threshold 99/100 no stored chunk reaches the threshold
    and the result is empty. *)
Lemma query_ranked_and_filtered_witness :
  map hit_content (query ex_distance "sky color" 2 (3 # 10) ex_index)
    = ["Grass is green"; "The sky is blue."] /\
  map hit_content (query ex_distance "sky color" 2 (4 # 10) ex_index)
    = ["Grass is green"] /\
  query ex_distance "sky color" 2 (99 # 100) ex_index = [].
Proof.
  split; [vm_compute; reflexivity|]. split; [vm_compute; reflexivity|].
  apply (query_ranked_and_filtered ex_distance "sky color" 2 (99 # 100)
           ex_index).
  intros emb q r He Hq Hr.
  change (embeddings ex_index) with (Some ex_embeddings) in He.
  injection He as <-. injection Hq as <-.
  assert (Hc : collection ex_index =
               [mkChunkRecord "doc_The sky is blue." "The sky is blue."
                  (ex_embed "The sky is blue.")
                  (<["chunk_index" := MInt 0]>
                     (<["source" := MStr "note.txt"]> ∅));
                mkChunkRecord "doc_Grass is green" "Grass is green"
                  (ex_embed "Grass is green")
                  (<["chunk_index" := MInt 0]>
                     (<["source" := MStr "unknown"]> ∅))])
    by (vm_compute; reflexivity).
  rewrite Hc in Hr.
  apply elem_of_cons in Hr as [->|Hr]; [vm_compute; reflexivity|].
  apply list_elem_of_singleton in Hr as ->. vm_compute; reflexivity.
Defined.

(** C7 on a concrete index: two documents with content and an empty one,
    imported twice into an empty collection. *)
Lemma add_documents_reimport_idempotent_witness :
  let rag1 := snd (add_documents ex_sha256 ex_docs ex_rag) in
  let rag2 := snd (add_documents ex_sha256 ex_docs rag1) in
  stored_ids (collection rag1) = ["doc_The sky is blue."; "doc_Grass is green"]
  /\ collection rag2 = collection rag1
  /\ NoDup (stored_ids (collection rag2)).
Proof.
  intros rag1 rag2. split; [vm_compute; reflexivity|].
  destruct (add_documents_reimport_idempotent ex_sha256 ex_docs ex_docs ex_rag)
    as (_ & _ & _ & H1 & H2).
  split; [exact H1|]. apply H2. vm_compute. constructor.
Defined.

End RagProofs.

(** * Verification of chatbot.py *)

Module ChatbotProofs.
Import Chatbot ChatbotSpec.

(** ** Prompt assembly *)

Lemma document_loop (history : list (string * string)) (parts : list string) :
  fold_left
    (fun parts '(role, content) =>
       if bool_decide (role = "document_context") then
         append_part parts ("## Imported Document Context:" +:+ nl +:+ content)
       else parts)
    history parts =
  (parts ++ document_block history)%list.
Proof.
  revert parts. unfold document_block.
  induction history as [|[role content] history IH]; intros parts; simpl.
  - by rewrite app_nil_r.
  - rewrite IH, filter_cons. simpl. case_bool_decide as Hr.
    + rewrite decide_True by done. unfold append_part. simpl.
      by rewrite <- app_assoc.
    + by rewrite decide_False by done.
Qed.

Lemma turn_loop (history : list (string * string)) (parts : list string) :
  fold_left
    (fun parts '(role, content) =>
       if bool_decide (role = "user") then
         append_part parts ("User: " +:+ content)
       else if bool_decide (role = "assistant") then
         append_part parts ("Assistant: " +:+ content)
       else parts)
    history parts =
  (parts ++ turn_block history)%list.
Proof.
  revert parts. unfold turn_block.
  induction history as [|[role content] history IH]; intros parts; simpl.
  - by rewrite app_nil_r.
  - rewrite IH, filter_cons. simpl. unfold append_part.
    case_bool_decide as Hu.
    + rewrite decide_True by (by left). simpl. unfold turn_label. simpl.
      rewrite bool_decide_eq_true_2 by done. by rewrite <- app_assoc.
    + case_bool_decide as Ha.
      * rewrite decide_True by (by right). simpl. unfold turn_label. simpl.
        rewrite bool_decide_eq_false_2 by done. by rewrite <- app_assoc.
      * rewrite decide_False by tauto. done.
Qed.

Lemma preamble_parts (user_name user_persona : option string) :
  (if truthy_opt user_name && truthy_opt user_persona then
     append_part []
       ("You are responding to " +:+ default "" user_name +:+
        ", whose persona is: '" +:+ default "" user_persona +:+ "'.")
   else if truthy_opt user_name then
     append_part [] ("You are responding to " +:+ default "" user_name +:+ ".")
   else if truthy_opt user_persona then
     append_part []
       ("The user's persona is: '" +:+ default "" user_persona +:+ "'.")
   else []) = preamble_block user_name user_persona.
Proof.
  unfold preamble_block.
  by destruct (truthy_opt user_name), (truthy_opt user_persona).
Qed.

Lemma prompt_parts_blocks (message : string)
  (user_name user_persona : option string)
  (history : option (list (string * string))) (rag_context : option string) :
  prompt_parts message user_name user_persona history rag_context =
  (preamble_block user_name user_persona ++
   retrieved_block rag_context ++
   document_block (default [] history) ++
   turn_block (default [] history) ++
   current_block message)%list.
Proof.
  unfold prompt_parts. rewrite preamble_parts.
  rewrite turn_loop, document_loop. unfold append_part, current_block.
  assert (Hr : (if truthy_opt rag_context
                then (preamble_block user_name user_persona ++
                      [default "" rag_context])%list
                else preamble_block user_name user_persona) =
               (preamble_block user_name user_persona ++
                retrieved_block rag_context)%list).
  { unfold retrieved_block. destruct rag_context as [c|]; simpl.
    - destruct (truthy c); [done | by rewrite app_nil_r].
    - by rewrite app_nil_r. }
  rewrite Hr. by rewrite <- !app_assoc.
Qed.

(** ** One call *)

Section Call.

Context {A : Arith}.

Lemma rate_limit_effect (bot : Chatbot A) :
  let current_time := entry_time bot in
  let elapsed_time := sub A current_time (last_request_time bot) in
  let sleep_time := sub A (RATE_LIMIT_DURATION A) elapsed_time in
  rate_limit A bot =
  if ltb A elapsed_time (RATE_LIMIT_DURATION A) then
    let t :=
      add A (add A (add A current_time (drift bot (S (steps bot))))
               sleep_time) (drift bot (S (S (steps bot)))) in
    mkChatbot A (llm_invoke bot) t t (drift bot) (S (S (S (steps bot))))
      (events bot ++ [Slept sleep_time])
  else
    let t := add A current_time (drift bot (S (steps bot))) in
    mkChatbot A (llm_invoke bot) t t (drift bot) (S (S (steps bot)))
      (events bot).
Proof.
  unfold rate_limit, time_time, time_sleep, pass_time, entry_time,
    set_last_request_time. cbn.
  by destruct (ltb A _ _).
Qed.

Lemma rate_limit_keeps (bot : Chatbot A) :
  llm_invoke (rate_limit A bot) = llm_invoke bot /\
  drift (rate_limit A bot) = drift bot /\
  wall (rate_limit A bot) = last_request_time (rate_limit A bot) /\
  dispatched (events (rate_limit A bot)) = dispatched (events bot) /\
  dispatch_times (events (rate_limit A bot)) = dispatch_times (events bot).
Proof.
  rewrite rate_limit_effect. cbn zeta.
  destruct (ltb A _ _); cbn [llm_invoke drift wall last_request_time events];
    repeat split; unfold dispatched, dispatch_times;
    by rewrite omap_app, app_nil_r.
Qed.

Lemma chat_valid (message : string) (user_name user_persona : option string)
  (history : option (list (string * string))) (rag_context : option string)
  (bot : Chatbot A) :
  valid_message message ->
  let prompt :=
    build_prompt message user_name user_persona history rag_context in
  let bot' := rate_limit A bot in
  chat A message user_name user_persona history rag_context bot =
  (match llm_invoke bot prompt with
   | Some result => Response result
   | None => APIError
   end,
   mkChatbot A (llm_invoke bot) (last_request_time bot')
     (add A (wall bot') (drift bot (steps bot'))) (drift bot)
     (S (steps bot'))
     (events bot' ++
      [Dispatched (add A (wall bot') (drift bot (steps bot'))) prompt])).
Proof.
  intros [Ht Hs] prompt bot'. unfold chat. rewrite Ht, Hs. cbn [negb orb].
  fold prompt. fold bot'. unfold invoke, pass_time.
  cbn [llm_invoke last_request_time wall drift steps events].
  destruct (rate_limit_keeps bot) as (Hl & Hd & _). fold bot' in Hl, Hd.
  rewrite Hl, Hd. by destruct (llm_invoke bot prompt).
Qed.

Lemma chat_dispatch_times (message : string)
  (user_name user_persona : option string)
  (history : option (list (string * string))) (rag_context : option string)
  (bot : Chatbot A) :
  valid_message message ->
  let bot' :=
    snd (chat A message user_name user_persona history rag_context bot) in
  dispatch_times (events bot') =
  (dispatch_times (events bot) ++ [wall bot'])%list.
Proof.
  intros Hv. cbn zeta. rewrite chat_valid by exact Hv. cbn [snd events wall].
  unfold dispatch_times at 1. rewrite omap_app. cbn [omap].
  destruct (rate_limit_keeps bot) as (_ & _ & _ & _ & Ht).
  unfold dispatch_times in Ht. by rewrite Ht.
Qed.

End Call.

(** C9: for a message that passes the guard, [chat] dispatches exactly
    once, and the prompt it hands to the model is the blank-line join of
    these parts, in this order: the identity/persona preamble (present when
    a name or a persona is given), the retrieved context (when present and
    non-empty), every document_context entry of the history in history
    order, every user/assistant turn of the history in history order, and
    the current user message last.  The list [prompt_parts] built by the
    code is the concatenation of these five blocks, and the value [chat]
    returns is the model's answer to that prompt. *)
Theorem chat_prompt_order (A : Arith) (message : string)
  (user_name user_persona : option string)
  (history : option (list (string * string))) (rag_context : option string)
  (bot : Chatbot A) :
  valid_message message ->
  let parts :=
    (preamble_block user_name user_persona ++
     retrieved_block rag_context ++
     document_block (default [] history) ++
     turn_block (default [] history) ++
     current_block message)%list in
  let out := chat A message user_name user_persona history rag_context bot in
  prompt_parts message user_name user_persona history rag_context = parts /\
  dispatched (events (snd out)) =
    (dispatched (events bot) ++ [join (nl +:+ nl) parts])%list /\
  fst out = match llm_invoke bot (join (nl +:+ nl) parts) with
            | Some result => Response result
            | None => APIError
            end.
Proof.
  intros Hv parts out.
  pose proof (prompt_parts_blocks message user_name user_persona history
                rag_context) as Hp. fold parts in Hp.
  split; [exact Hp|]. unfold out. rewrite chat_valid by exact Hv.
  cbn [fst snd events]. unfold build_prompt. rewrite Hp.
  split; [|done].
  unfold dispatched at 1. rewrite omap_app. cbn [omap].
  destruct (rate_limit_keeps bot) as (_ & _ & _ & Hd & _).
  unfold dispatched in Hd. by rewrite Hd.
Qed.

(** C9 on a concrete call: a history mixing the three roles and an
    unknown one, with name, persona and retrieved context. *)
Lemma chat_prompt_order_witness :
  valid_message "what now?" /\
  let out :=
    chat binary64 "what now?" (Some "Ada") (Some "engineer")
      (Some ex_history) (Some "## Retrieved Context:") ex_bot in
  prompt_parts "what now?" (Some "Ada") (Some "engineer") (Some ex_history)
    (Some "## Retrieved Context:") =
  ["You are responding to Ada, whose persona is: 'engineer'.";
   "## Retrieved Context:";
   "## Imported Document Context:" +:+ nl +:+ "Document: a.txt";
   "## Imported Document Context:" +:+ nl +:+ "Document: b.txt";
   "User: hi"; "Assistant: hello"; "User: bye";
   "User's message: what now?"] /\
  dispatched (events (snd out)) =
  [join (nl +:+ nl)
     ["You are responding to Ada, whose persona is: 'engineer'.";
      "## Retrieved Context:";
      "## Imported Document Context:" +:+ nl +:+ "Document: a.txt";
      "## Imported Document Context:" +:+ nl +:+ "Document: b.txt";
      "User: hi"; "Assistant: hello"; "User: bye";
      "User's message: what now?"]].
Proof.
  assert (Hv : valid_message "what now?") by (split; reflexivity).
  split; [exact Hv|].
  destruct (chat_prompt_order binary64 "what now?" (Some "Ada")
              (Some "engineer") (Some ex_history)
              (Some "## Retrieved Context:") ex_bot Hv) as (Hp & Hd & _).
  split; [exact Hp | exact Hd].
Defined.

(** ** Throttle *)

Lemma Qltb_true (a b : Q) : Rag.Qltb a b = true <-> (a < b)%Q.
Proof.
  unfold Rag.Qltb. rewrite negb_true_iff. split.
  - intros H. apply Qnot_le_lt. intros Hle. apply Qle_bool_iff in Hle.
    congruence.
  - intros H. destruct (Qle_bool b a) eqn:E; [|done].
    apply Qle_bool_iff in E. lra.
Qed.

Lemma Qltb_false (a b : Q) : Rag.Qltb a b = false <-> (b <= a)%Q.
Proof.
  unfold Rag.Qltb. rewrite negb_false_iff. apply Qle_bool_iff.
Qed.

(** Over the rationals and a clock that never runs backwards, the time a
    call records is at least the interval after the one recorded before. *)
Lemma rate_limit_spacing (bot : Chatbot exact) :
  time_passes bot ->
  (last_request_time bot + 60 <= last_request_time (rate_limit exact bot))%Q.
Proof.
  intros Hd. rewrite rate_limit_effect. cbn zeta.
  pose proof (Hd (steps bot)) as H0.
  pose proof (Hd (S (steps bot))) as H1.
  pose proof (Hd (S (S (steps bot)))) as H2.
  unfold entry_time. cbn [exact num add sub ltb RATE_LIMIT_DURATION].
  destruct (Rag.Qltb _ _) eqn:E; cbn [last_request_time].
  - lra.
  - apply Qltb_false in E. lra.
Qed.

(** C10, refuted as stated.  First run: a fresh chatbot whose first call
    comes when the clock reads 60.1 and whose second call comes a quarter of
    a second later, with no other delay.  The second call sleeps for the
    59.75 seconds it computes, and the two dispatches happen at the
    binary64 readings 60.1 and 120.1, which are less than 60 apart, both as
    numbers and by the subtraction of the code.  Second run: a clock that
    reads 1700000000, where the arithmetic is exact; the first call spends
    half a second between recording its time and the dispatch, the second
    none; the recorded times are 60 apart and the two dispatches only
    59.5. *)
Lemma chat_dispatches_closer_than_interval :
  (let bot1 := snd (chat binary64 "hi" None None None None ex_bot_early) in
   let bot2 := snd (chat binary64 "again" None None None None bot1) in
   events bot2 =
     [Dispatched (A := binary64) 0x1.e0ccccccccccdp+5%float
        "User's message: hi";
      Slept (A := binary64) 59.75%float;
      Dispatched (A := binary64) 0x1.e066666666666p+6%float
        "User's message: again"] /\
   closer_than 60 0x1.e0ccccccccccdp+5 0x1.e066666666666p+6 = true /\
   PrimFloat.ltb
     (PrimFloat.sub 0x1.e066666666666p+6 0x1.e0ccccccccccdp+5) 60 = true)
  /\
  (let bot1 := snd (chat binary64 "hi" None None None None ex_bot) in
   let bot2 := snd (chat binary64 "again" None None None None bot1) in
   last_request_time bot1 = 1700000010%float /\
   last_request_time bot2 = 1700000070%float /\
   events bot2 =
     [Dispatched (A := binary64) 1700000010.5%float "User's message: hi";
      Slept (A := binary64) 59.25%float;
      Dispatched (A := binary64) 1700000070%float
        "User's message: again"] /\
   closer_than 60 1700000010.5 1700000070 = true).
Proof.
  vm_compute. repeat match goal with |- _ /\ _ => split end; reflexivity.
Qed.

(** C10, as the code has it.  Take two consecutive calls of [chat] on the
    same chatbot, each with a message that passes the guard.

    In the arithmetic of the code, and in any other: the first call ends
    with its dispatch; the second reads the clock and subtracts the time
    recorded by the first; when the difference is below
    RATE_LIMIT_DURATION it sleeps once, for RATE_LIMIT_DURATION minus the
    difference, and otherwise it does not sleep; it then records the next
    reading of the clock as [last_request_time], and dispatches once, after
    the time recorded.

    Over the rationals and with a clock that never runs backwards: the two
    recorded times are at least RATE_LIMIT_DURATION apart, each dispatch
    comes no earlier than the time recorded for it, and so the second
    dispatch follows the first by at least RATE_LIMIT_DURATION less the
    time the first call spent between recording and dispatching. *)
Theorem chat_waits_then_records :
  (forall (A : Arith) (message1 message2 : string)
     (user_name1 user_persona1 user_name2 user_persona2 : option string)
     (history1 history2 : option (list (string * string)))
     (rag_context1 rag_context2 : option string) (bot : Chatbot A),
     valid_message message1 ->
     valid_message message2 ->
     let bot1 :=
       snd (chat A message1 user_name1 user_persona1 history1 rag_context1
              bot) in
     let bot2 :=
       snd (chat A message2 user_name2 user_persona2 history2 rag_context2
              bot1) in
     let prompt1 :=
       build_prompt message1 user_name1 user_persona1 history1
         rag_context1 in
     let prompt2 :=
       build_prompt message2 user_name2 user_persona2 history2
         rag_context2 in
     let current_time := entry_time bot1 in
     let elapsed_time := sub A current_time (last_request_time bot1) in
     let sleep_time := sub A (RATE_LIMIT_DURATION A) elapsed_time in
     last (events bot1) = Some (Dispatched (wall bot1) prompt1) /\
     if ltb A elapsed_time (RATE_LIMIT_DURATION A) then
       events bot2 =
         (events bot1 ++
          [Slept sleep_time; Dispatched (wall bot2) prompt2])%list /\
       last_request_time bot2 =
         add A (add A (add A current_time (drift bot1 (S (steps bot1))))
                  sleep_time) (drift bot1 (S (S (steps bot1)))) /\
       wall bot2 =
         add A (last_request_time bot2) (drift bot1 (S (S (S (steps bot1)))))
     else
       events bot2 = (events bot1 ++ [Dispatched (wall bot2) prompt2])%list /\
       last_request_time bot2 =
         add A current_time (drift bot1 (S (steps bot1))) /\
       wall bot2 =
         add A (last_request_time bot2) (drift bot1 (S (S (steps bot1)))))
  /\
  (forall (message1 message2 : string)
     (user_name1 user_persona1 user_name2 user_persona2 : option string)
     (history1 history2 : option (list (string * string)))
     (rag_context1 rag_context2 : option string) (bot : Chatbot exact),
     time_passes bot ->
     valid_message message1 ->
     valid_message message2 ->
     let bot1 :=
       snd (chat exact message1 user_name1 user_persona1 history1
              rag_context1 bot) in
     let bot2 :=
       snd (chat exact message2 user_name2 user_persona2 history2
              rag_context2 bot1) in
     dispatch_times (events bot2) =
       (dispatch_times (events bot) ++ [wall bot1; wall bot2])%list /\
     (last_request_time bot1 + 60 <= last_request_time bot2)%Q /\
     (last_request_time bot1 <= wall bot1)%Q /\
     (last_request_time bot2 <= wall bot2)%Q /\
     (60 - (wall bot1 - last_request_time bot1) <= wall bot2 - wall bot1)%Q).
Proof.
  split.
  - intros A message1 message2 user_name1 user_persona1 user_name2
      user_persona2 history1 history2 rag_context1 rag_context2 bot Hv1 Hv2
      bot1 bot2 prompt1 prompt2 current_time elapsed_time sleep_time.
    split.
    + unfold bot1. rewrite chat_valid by exact Hv1.
      cbn [snd events wall]. by rewrite last_snoc.
    + unfold bot2. rewrite chat_valid by exact Hv2.
      cbn [snd events wall last_request_time].
      rewrite rate_limit_effect. cbn zeta.
      fold current_time. fold elapsed_time. fold sleep_time. fold prompt2.
      destruct (ltb A elapsed_time (RATE_LIMIT_DURATION A));
        cbn [events wall last_request_time steps];
        rewrite <- ?app_assoc; done.
  - intros message1 message2 user_name1 user_persona1 user_name2
      user_persona2 history1 history2 rag_context1 rag_context2 bot Hd Hv1
      Hv2 bot1 bot2.
    assert (E1 : bot1 =
      snd (chat exact message1 user_name1 user_persona1 history1
             rag_context1 bot)) by done.
    assert (E2 : bot2 =
      snd (chat exact message2 user_name2 user_persona2 history2
             rag_context2 bot1)) by done.
    rewrite chat_valid in E1 by exact Hv1.
    rewrite chat_valid in E2 by exact Hv2.
    cbn [snd] in E1, E2.
    destruct (rate_limit_keeps bot) as (_ & Hk & Hw & _ & Ht).
    assert (Hd1 : time_passes bot1).
    { rewrite E1. exact Hd. }
    destruct (rate_limit_keeps bot1) as (_ & Hk1 & Hw1 & _ & Ht1).
    pose proof (rate_limit_spacing bot1 Hd1) as Hs.
    assert (Hl1 : last_request_time bot1 =
                  last_request_time (rate_limit exact bot)).
    { by rewrite E1. }
    assert (Hl2 : last_request_time bot2 =
                  last_request_time (rate_limit exact bot1)).
    { by rewrite E2. }
    assert (Hwall1 : wall bot1 =
      (last_request_time bot1 +
       drift bot (steps (rate_limit exact bot)))%Q).
    { rewrite E1 at 1. cbn [wall]. by rewrite Hw, Hl1. }
    assert (Hwall2 : wall bot2 =
      (last_request_time bot2 +
       drift bot1 (steps (rate_limit exact bot1)))%Q).
    { rewrite E2 at 1. cbn [wall]. by rewrite Hw1, Hl2. }
    pose proof (Hd (steps (rate_limit exact bot))) as Ha1.
    pose proof (Hd1 (steps (rate_limit exact bot1))) as Ha2.
    split.
    { pose proof (chat_dispatch_times message2 user_name2 user_persona2
                    history2 rag_context2 bot1 Hv2) as H2.
      pose proof (chat_dispatch_times message1 user_name1 user_persona1
                    history1 rag_context1 bot Hv1) as H1.
      cbn zeta in H1, H2. fold bot1 in H1. fold bot1 bot2 in H2.
      by rewrite H2, H1, <- app_assoc. }
    rewrite Hwall1, Hwall2, Hl2.
    set (r1 := last_request_time bot1) in *.
    set (r2 := last_request_time (rate_limit exact bot1)) in *.
    cbn [exact num] in *.
    repeat split; lra.
Qed.

(** C10 on concrete chatbots.  In binary64, on the clock that reads
    1700000000: the second call finds 0.75 seconds elapsed, sleeps 59.25
    and records 1700000070.  Over the rationals, the same run: recorded
    times 60 apart, dispatches at 3400000021/2 and 1700000070. *)
Lemma chat_waits_then_records_witness :
  (valid_message "hi" /\ valid_message "again" /\
   time_passes ex_bot_exact) /\
  (let bot1 := snd (chat binary64 "hi" None None None None ex_bot) in
   let bot2 := snd (chat binary64 "again" None None None None bot1) in
   PrimFloat.ltb (PrimFloat.sub (entry_time bot1) (last_request_time bot1))
     60 = true /\
   events bot2 =
     (events bot1 ++
      [Slept (A := binary64)
         (PrimFloat.sub 60
            (PrimFloat.sub (entry_time bot1) (last_request_time bot1)));
       Dispatched (wall bot2) "User's message: again"])%list) /\
  (let bot1 := snd (chat exact "hi" None None None None ex_bot_exact) in
   let bot2 := snd (chat exact "again" None None None None bot1) in
   (last_request_time bot1 + 60 <= last_request_time bot2)%Q /\
   (60 - (wall bot1 - last_request_time bot1) <= wall bot2 - wall bot1)%Q).
Proof.
  assert (Hv1 : valid_message "hi") by (split; reflexivity).
  assert (Hv2 : valid_message "again") by (split; reflexivity).
  assert (Hd : time_passes ex_bot_exact).
  { intros k. do 4 (destruct k as [|k]; [vm_compute; discriminate|]).
    vm_compute; discriminate. }
  split; [by repeat split|].
  destruct chat_waits_then_records as [Hcode Hexact].
  split.
  - pose proof (Hcode binary64 "hi" "again" None None None None None None
                  None None ex_bot Hv1 Hv2) as [_ H].
    cbv zeta in H.
    assert (E : ltb binary64
                  (sub binary64
                     (entry_time
                        (snd (chat binary64 "hi" None None None None ex_bot)))
                     (last_request_time
                        (snd (chat binary64 "hi" None None None None
                                ex_bot))))
                  (RATE_LIMIT_DURATION binary64) = true)
      by (vm_compute; reflexivity).
    rewrite E in H. destruct H as (He & _).
    split; [exact E | exact He].
  - destruct (Hexact "hi" "again" None None None None None None None None
                ex_bot_exact Hd Hv1 Hv2) as (_ & H1 & _ & _ & H2).
    split; [exact H1 | exact H2].
Defined.

End ChatbotProofs.

(** * Further properties of memory.py *)

Module MemoryExtra.
Import Memory MemorySpec MemoryProofs.

(** ** rename_session: the ways it refuses *)

(** X1: an empty or whitespace-only new id is refused: rename_session
    returns False and changes nothing, whatever the store holds. *)
Theorem rename_session_blank_rejected (old new : string) (m : MemoryManager) :
  truthy new = false \/ strip_is_empty new = true ->
  rename_session old new m = (false, m).
Proof.
  intros H. unfold rename_session.
  assert (E : negb (truthy new) || strip_is_empty new = true).
  { destruct H as [-> | ->]; [done|]. apply orb_true_r. }
  by rewrite E.
Qed.

Lemma rename_session_blank_rejected_witness :
  rename_session "s1" "  " (ex_chat true) = (false, ex_chat true).
Proof. apply rename_session_blank_rejected. right. reflexivity. Defined.

(** X2: renaming onto an id under which a session loads is refused:
    rename_session returns False and changes nothing, in either backend. *)
Theorem rename_session_conflict_rejected (old new : string)
  (m : MemoryManager) :
  is_Some (get_session new m) ->
  rename_session old new m = (false, m).
Proof.
  intros H. unfold rename_session.
  destruct (negb (truthy new) || strip_is_empty new); [done|].
  by rewrite bool_decide_eq_true_2.
Qed.

Lemma rename_session_conflict_rejected_witness :
  rename_session "other" "s1" (ex_chat false) = (false, ex_chat false).
Proof.
  apply rename_session_conflict_rejected. vm_compute. eexists. reflexivity.
Defined.



(** ** add_message: edge cases *)

(** X4: with no usable session id (none given, or an empty one) and no
    current session, add_message returns None, stores nothing and does not
    even read the clock. *)
Theorem add_message_without_session (r c : string) (sid : option string)
  (md : option Dict) (m : MemoryManager) :
  truthy_opt sid = false ->
  current_session m = None ->
  add_message r c sid md m = (None, m).
Proof.
  intros Hs Hc. unfold add_message, py_or. rewrite Hs, Hc. done.
Qed.

Lemma add_message_without_session_witness :
  add_message "user" "hi" (Some "") None (ex_empty true)
  = (None, ex_empty true).
Proof. by apply add_message_without_session. Defined.

(** X5: in the JSON-file backend, add_message on an id under which no
    session loads still returns the message, but no file is written or
    changed: the message is dropped silently. *)
Theorem add_message_file_missing_session_dropped (r c sid : string)
  (md : option Dict) (m : MemoryManager) :
  truthy sid = true ->
  use_db m = false ->
  get_session sid m = None ->
  fst (add_message r c (Some sid) md m) =
    Some (mkMessage r c (isoformat (clock m (ticks m))) (default [] md)) /\
  files (snd (add_message r c (Some sid) md m)) = files m /\
  get_session sid (snd (add_message r c (Some sid) md m)) = None.
Proof.
  intros Ht Hdb Hnone.
  destruct (add_message_store r c sid md m Ht) as (Hu & _ & Hf).
  specialize (Hf Hdb). rewrite Hnone in Hf.
  split; [|split; [done|]].
  - unfold add_message, py_or.
    change (truthy_opt (Some sid)) with (truthy sid). rewrite Ht.
    change (truthy_opt (Some sid)) with (truthy sid). by rewrite Ht.
  - unfold get_session in *. rewrite Hu, Hdb in *.
    unfold _get_session_from_file in *. by rewrite Hf.
Qed.

Lemma add_message_file_missing_session_dropped_witness :
  files (snd (add_message "user" "hi" (Some "ghost") None (ex_chat false)))
  = files (ex_chat false).
Proof.
  by apply (add_message_file_missing_session_dropped "user" "hi" "ghost" None
              (ex_chat false)).
Defined.

(** ** get_conversation_history: edge cases *)

(** X6: a negative limit -k does not select the last messages: Python's
    slice [messages[k:]] drops the first k messages and returns the rest. *)
Theorem get_conversation_history_negative_limit (sid : string) (k : Z)
  (m : MemoryManager) :
  truthy sid = true ->
  0 < k ->
  get_conversation_history (Some sid) (Some (- k)) m =
  drop (Z.to_nat k) (get_conversation_history (Some sid) None m).
Proof.
  intros Ht Hk. rewrite !history_of_session by done.
  destruct (get_session sid m) as [s|]; [|by rewrite drop_nil].
  rewrite (proj2 (Z.eqb_neq (- k) 0)) by lia.
  unfold py_slice_from. rewrite (proj2 (Z.ltb_ge _ _)) by lia.
  rewrite Z.opp_involutive.
  change (map ?f ?l) with (f <$> l). rewrite fmap_drop.
  destruct (decide (k <= Z.of_nat (length (messages s)))) as [Hle|Hgt].
  - by rewrite Z.min_l by lia.
  - rewrite Z.min_r by lia. rewrite Nat2Z.id.
    rewrite drop_ge by (rewrite length_fmap; lia).
    symmetry. apply drop_ge. rewrite length_fmap. lia.
Qed.

Lemma get_conversation_history_negative_limit_witness :
  get_conversation_history (Some "s1") (Some (-2)) (ex_chat true)
  = [("assistant", "hello")].
Proof.
  by apply (get_conversation_history_negative_limit "s1" 2 (ex_chat true)).
Defined.



(** ** File names *)

Lemma length_append (s1 s2 : string) :
  String.length (s1 +:+ s2) = (String.length s1 + String.length s2)%nat.
Proof. induction s1 as [|c s1 IH]; simpl; [done | by rewrite IH]. Qed.

Lemma append_inj_l (s a b : string) : a +:+ s = b +:+ s -> a = b.
Proof.
  revert b. induction a as [|c a IH]; intros [|d b] H; simpl in H.
  - done.
  - apply (f_equal String.length) in H. simpl in H.
    rewrite !length_append in H. simpl in H. lia.
  - apply (f_equal String.length) in H. simpl in H.
    rewrite !length_append in H. simpl in H. lia.
  - injection H as -> H. f_equal. by apply IH.
Qed.

Lemma file_path_inj (a b : string) : file_path a = file_path b -> a = b.
Proof. apply append_inj_l. Qed.

(** ** create_session *)

Lemma loaded_writable (sid : string) (s : Session) (m : MemoryManager) :
  use_db m = false ->
  get_session sid m = Some s ->
  writable (file_path sid) (files m) = true.
Proof.
  intros Hdb Hs. unfold get_session in Hs. rewrite Hdb in Hs.
  apply get_session_from_file_inv in Hs. apply writable_existing.
  by eexists.
Qed.

Lemma create_session_unfold (sid model : string) (m : MemoryManager) :
  create_session (Some sid) model m =
  let s :=
    mkSession sid (default "User" (config m !! "USER_NAME"))
      (default "" (config m !! "USER_PERSONA")) model
      (isoformat (clock m (ticks m))) (isoformat (clock m (S (ticks m))))
      [] [] in
  let m2 := set_ticks (S (S (ticks m))) m in
  (s, set_current_session (Some s)
        (if use_db m then _save_session_to_db s m2
         else _save_session_to_file s m2)).
Proof. reflexivity. Qed.

Lemma select_messages_none (sid : string) (d : Database) :
  Forall (fun r => col_session_id r <> sid) (messages_table d) ->
  select_messages sid d = [].
Proof.
  intros H. unfold select_messages.
  assert (E : filter (fun r => col_session_id r = sid) (messages_table d) = []).
  { induction (messages_table d) as [|r l IH]; [done|].
    apply Forall_cons in H as [Hr Hl].
    rewrite filter_cons_False by done. by apply IH. }
  by rewrite E.
Qed.

Lemma create_session_loads (sid model : string) (m : MemoryManager) :
  (use_db m = true ->
   Forall (fun r => col_session_id r <> sid) (messages_table (db m))) ->
  (use_db m = false -> writable (file_path sid) (files m) = true) ->
  get_session sid (snd (create_session (Some sid) model m)) =
    Some (fst (create_session (Some sid) model m)) /\
  session_id (fst (create_session (Some sid) model m)) = sid /\
  messages (fst (create_session (Some sid) model m)) = [] /\
  current_session (snd (create_session (Some sid) model m)) =
    Some (fst (create_session (Some sid) model m)).
Proof.
  intros Hrows Hfile. rewrite create_session_unfold. cbv zeta.
  cbn [fst snd]. split; [|done]. unfold get_session.
  destruct (use_db m) eqn:Hdb.
  - cbn [use_db set_current_session _save_session_to_db set_db set_ticks].
    rewrite Hdb.
    erewrite get_session_from_db_lookup; [|apply lookup_insert_eq].
    rewrite select_messages_none by (by apply Hrows). reflexivity.
  - cbn [use_db set_current_session _save_session_to_file set_files
           set_ticks].
    rewrite Hdb. apply get_session_from_file_lookup.
    cbn [files set_files set_current_session set_ticks].
    rewrite save_session_to_file_files by (by apply Hfile).
    apply lookup_insert_eq.
Qed.

(** X8: a session just created loads back exactly as create_session
    returned it - with the given id and no messages - and is the current
    session; in the SQLite backend this needs that table messages holds no
    row under that id, in the JSON-file backend that the session file
    exists or can be created. *)
Theorem create_session_then_load (sid model : string) (m : MemoryManager) :
  (use_db m = true ->
   Forall (fun r => col_session_id r <> sid) (messages_table (db m))) ->
  (use_db m = false -> writable (file_path sid) (files m) = true) ->
  get_session sid (snd (create_session (Some sid) model m)) =
    Some (fst (create_session (Some sid) model m)) /\
  session_id (fst (create_session (Some sid) model m)) = sid /\
  messages (fst (create_session (Some sid) model m)) = [] /\
  current_session (snd (create_session (Some sid) model m)) =
    Some (fst (create_session (Some sid) model m)).
Proof. apply create_session_loads. Qed.

Lemma create_session_then_load_witness :
  get_session "s9" (snd (create_session (Some "s9") "gemini" (ex_empty true)))
  = Some (fst (create_session (Some "s9") "gemini" (ex_empty true))).
Proof.
  exact (proj1 (create_session_then_load "s9" "gemini" (ex_empty true)
                  (fun _ => List.Forall_nil _)
                  (fun H => False_ind _ (diff_true_false H)))).
Defined.

(** ** clear_session_messages in the JSON-file backend *)

(** X9: in the JSON-file backend, clearing a stored session succeeds and
    the session then loads with exactly its former document_context
    messages, in their original order, and everything else unchanged. *)
Theorem clear_session_messages_file_keeps_documents (sid : string)
  (s : Session) (m : MemoryManager) :
  use_db m = false ->
  get_session sid m = Some s ->
  session_id s = sid ->
  fst (clear_session_messages sid m) = true /\
  get_session sid (snd (clear_session_messages sid m)) =
    Some (with_messages (filter is_document_context (messages s)) s).
Proof.
  intros Hdb Hs Hid. unfold clear_session_messages. rewrite Hdb, Hs.
  split; [done|]. cbn [snd].
  match goal with
  | |- context [if current_is ?i ?x then set_current_session ?c ?x else ?x] =>
      destruct (current_update_keeps_store (current_is i x) c x)
        as (Hu & _ & Hf)
  end.
  unfold get_session. rewrite Hu. cbn [use_db _save_session_to_file set_files].
  rewrite Hdb. apply get_session_from_file_lookup. rewrite Hf.
  rewrite save_session_to_file_files;
    cbn [session_id with_messages]; rewrite Hid.
  - apply lookup_insert_eq.
  - by eapply loaded_writable.
Qed.

Lemma clear_session_messages_file_keeps_documents_witness :
  (map content ∘ messages) <$>
    get_session "s1" (snd (clear_session_messages "s1" (ex_chat false)))
  = Some ["Document: note.txt"].
Proof.
  rewrite (proj2 (clear_session_messages_file_keeps_documents "s1" ex_session
                    (ex_chat false) eq_refl eq_refl eq_refl)).
  reflexivity.
Defined.

(** X10: in the JSON-file backend, clearing a session that does not load
    returns False and changes nothing. *)
Theorem clear_session_messages_file_missing (sid : string)
  (m : MemoryManager) :
  use_db m = false ->
  get_session sid m = None ->
  clear_session_messages sid m = (false, m).
Proof.
  intros Hdb Hs. unfold clear_session_messages. by rewrite Hdb, Hs.
Qed.

Lemma clear_session_messages_file_missing_witness :
  clear_session_messages "ghost" (ex_chat false) = (false, ex_chat false).
Proof. by apply clear_session_messages_file_missing. Defined.

(** ** add_message on a stored session *)

(** X11: on a stored session with a non-empty id, in either backend,
    add_message appends exactly the new message - with the clock reading as
    timestamp and an empty metadata dictionary when none is given - after
    the messages already stored, and leaves every other field of the session
    except updated_at as it was; in the SQLite backend updated_at becomes
    the next clock reading. *)
Theorem add_message_appends (r c sid : string) (md : option Dict)
  (s : Session) (m : MemoryManager) :
  truthy sid = true ->
  session_stored sid m ->
  get_session sid m = Some s ->
  let msg := mkMessage r c (isoformat (clock m (ticks m))) (default [] md) in
  exists t,
    get_session sid (snd (add_message r c (Some sid) md m)) =
      Some (with_session_updated_at t (append_message s msg)) /\
    (use_db m = true -> t = isoformat (clock m (S (ticks m)))).
Proof.
  intros Ht Hst Hs msg.
  destruct (add_message_store r c sid md m Ht) as (Hu & Hd & Hf).
  unfold session_stored in Hst. unfold get_session in *. rewrite Hu.
  destruct (use_db m) eqn:Hdb.
  - exists (isoformat (clock m (S (ticks m)))). split; [|done].
    destruct Hst as [Hwf [row Hrow]]. specialize (Hd eq_refl).
    fold msg in Hd.
    rewrite (get_session_from_db_lookup _ _ _ Hrow) in Hs.
    injection Hs as <-.
    assert (Hrow' : sessions (db (snd (add_message r c (Some sid) md m)))
                      !! sid =
                    Some (with_updated_at
                            (isoformat (clock m (S (ticks m)))) row)).
    { rewrite Hd. simpl. by rewrite lookup_alter_eq, Hrow. }
    rewrite (get_session_from_db_lookup _ _ _ Hrow').
    rewrite !select_messages_wf;
      [|done | rewrite Hd; by apply (insert_message_wf sid msg) in Hwf].
    rewrite Hd. simpl. rewrite filter_app, map_app.
    rewrite filter_cons_True by done. done.
  - exists (updated_at s). split; [|done].
    destruct Hst as [data [Hfile Hid]]. specialize (Hf eq_refl).
    rewrite (get_session_from_file_lookup _ _ _ Hfile) in Hs, Hf.
    injection Hs as <-. fold msg in Hf.
    apply get_session_from_file_lookup. rewrite Hf.
    assert (Hsid : session_id (append_message data msg) = sid)
      by (by destruct data).
    rewrite save_session_to_file_files; rewrite Hsid.
    + rewrite lookup_insert_eq. by destruct data.
    + apply writable_existing. by eexists.
Qed.

Lemma add_message_appends_witness :
  exists t,
    get_session "s1"
      (snd (add_message "user" "again" (Some "s1") None (ex_chat false))) =
    Some (with_session_updated_at t
            (append_message ex_session
               (mkMessage "user" "again" "2025-01-01T00:00:05" []))) /\
    (use_db (ex_chat false) = true -> t = "2025-01-01T00:00:06").
Proof.
  apply (add_message_appends "user" "again" "s1" None ex_session
           (ex_chat false)); [done | | vm_compute; reflexivity].
  vm_compute. eexists. split; reflexivity.
Defined.

(** ** delete_session *)

Lemma get_session_from_db_ext (sid : string) (m1 m2 : MemoryManager) :
  sessions (db m1) !! sid = sessions (db m2) !! sid ->
  filter (fun r => col_session_id r = sid) (messages_table (db m1)) =
  filter (fun r => col_session_id r = sid) (messages_table (db m2)) ->
  _get_session_from_db sid m1 = _get_session_from_db sid m2.
Proof.
  intros H1 H2. unfold _get_session_from_db, select_messages.
  by rewrite H1, H2.
Qed.

Lemma filter_other_session (sid other : string) (rows : list MessageRow) :
  other <> sid ->
  filter (fun r => col_session_id r = other)
    (filter (fun r => col_session_id r <> sid) rows) =
  filter (fun r => col_session_id r = other) rows.
Proof.
  intros Hne. rewrite list_filter_filter. apply list_filter_iff.
  intros r. split; [by intros [? ?] | intros H; split; [done | congruence]].
Qed.

Lemma delete_session_effect (sid : string) (m : MemoryManager) :
  fst (delete_session sid m) = true /\
  get_session sid (snd (delete_session sid m)) = None /\
  (forall other, other <> sid ->
     get_session other (snd (delete_session sid m)) = get_session other m) /\
  (use_db m = true ->
   Forall (fun r => col_session_id r <> sid)
     (messages_table (db (snd (delete_session sid m))))).
Proof.
  unfold delete_session. cbn [fst snd]. split; [done|].
  match goal with
  | |- context [if current_is ?i ?x then set_current_session ?c ?x else ?x] =>
      destruct (current_update_keeps_store (current_is i x) c x)
        as (Hu & Hd & Hf); set (m' := if current_is i x
                                       then set_current_session c x else x) in *
  end.
  unfold get_session. rewrite Hu.
  destruct (use_db m) eqn:Hdb;
    cbn [use_db set_db set_files db files] in Hu, Hd, Hf |- *.
  - rewrite Hdb. split; [|split].
    + unfold _get_session_from_db. rewrite Hd. simpl.
      by rewrite lookup_delete_eq.
    + intros other Hne. apply get_session_from_db_ext; rewrite Hd; simpl.
      * by apply lookup_delete_ne.
      * by apply filter_other_session.
    + intros _. rewrite Hd. simpl. apply Forall_forall. intros r Hr.
      by apply list_elem_of_filter in Hr as [Hr _].
  - assert (Hfiles : files m' = delete (file_path sid) (files m)).
    { rewrite Hf. destruct (files m !! file_path sid) eqn:E; simpl; [done|].
      symmetry. by apply delete_id. }
    assert (Hudb : use_db (match files m !! file_path sid with
                           | Some _ => set_files (delete (file_path sid)
                                                    (files m)) m
                           | None => m
                           end) = false).
    { by destruct (files m !! file_path sid). }
    rewrite Hudb. split; [|split; [|intros H; discriminate]].
    + unfold _get_session_from_file. by rewrite Hfiles, lookup_delete_eq.
    + intros other Hne. unfold _get_session_from_file.
      rewrite Hfiles, lookup_delete_ne; [done|].
      intros E. apply file_path_inj in E. congruence.
Qed.


(** X13: deleting a session and creating one under the same id gives a
    fresh session in both backends: it loads exactly as create_session
    returned it, with no messages, whatever the id held before (in the
    JSON-file backend the id must give a file name that can be
    created). *)
Theorem create_after_delete_is_fresh (sid model : string)
  (m : MemoryManager) :
  (use_db m = false -> plain_name (file_path sid) = true) ->
  let m1 := snd (delete_session sid m) in
  get_session sid (snd (create_session (Some sid) model m1)) =
    Some (fst (create_session (Some sid) model m1)) /\
  messages (fst (create_session (Some sid) model m1)) = [].
Proof.
  intros Hplain m1.
  destruct (delete_session_effect sid m) as (_ & _ & _ & Hrows).
  assert (Hu : use_db m1 = use_db m).
  { unfold m1, delete_session. cbn [snd].
    match goal with
    | |- context [if current_is ?i ?x then set_current_session ?c ?x else ?x] =>
        destruct (current_update_keeps_store (current_is i x) c x)
          as (-> & _ & _)
    end.
    destruct (use_db m) eqn:Hdb; [done|].
    by destruct (files m !! file_path sid). }
  destruct (create_session_loads sid model m1) as (H1 & _ & H2 & _).
  - rewrite Hu. exact Hrows.
  - rewrite Hu. intros Hdb. unfold writable.
    rewrite (Hplain Hdb). apply orb_true_r.
  - by split.
Qed.

Lemma create_after_delete_is_fresh_witness :
  let m1 := snd (delete_session "s1" (ex_chat false)) in
  plain_name (file_path "s1") = true /\
  messages <$> get_session "s1" (snd (create_session (Some "s1") "gemini" m1))
  = Some [].
Proof.
  intros m1. split; [reflexivity|].
  destruct (create_after_delete_is_fresh "s1" "gemini" (ex_chat false)
              (fun _ => eq_refl)) as [H1 H2].
  fold m1 in H1. rewrite H1. reflexivity.
Defined.

(** ** clear_all *)

Lemma drop_prefix_append_None (t p s : string) :
  overlap_free p t ->
  drop_prefix p s = None -> drop_prefix p (s +:+ t) = None.
Proof.
  revert p. induction s as [|b s IH]; intros [|a p] Hfree H; try done.
  - by destruct Hfree.
  - change (drop_prefix (String a p) (String b s +:+ t))
      with (if Ascii.eqb a b then drop_prefix p (s +:+ t) else None).
    change (drop_prefix (String a p) (String b s))
      with (if Ascii.eqb a b then drop_prefix p s else None) in H.
    destruct (Ascii.eqb a b); [|done].
    apply IH; [by destruct Hfree | done].
Qed.

Lemma glob_needs_prefix (sid : string) :
  drop_prefix "session_" sid = None ->
  glob_session_json (file_path sid) = false.
Proof.
  intros H. unfold glob_session_json, file_path.
  rewrite drop_prefix_append_None; [done| |done].
  vm_compute. repeat split.
Qed.

Lemma ends_with_json_append (rest : string) :
  ends_with_json (rest +:+ ".json") = true.
Proof.
  induction rest as [|c rest IH]; [reflexivity|].
  change (ends_with_json (String c rest +:+ ".json"))
    with (String.eqb (String c (rest +:+ ".json")) ".json"
          || ends_with_json (rest +:+ ".json")).
  rewrite IH. apply orb_true_r.
Qed.

Lemma has_slash_append_json (rest : string) :
  has_slash (rest +:+ ".json") = has_slash rest.
Proof.
  induction rest as [|c rest IH]; [reflexivity|]. simpl. by rewrite IH.
Qed.

Lemma glob_matches_generated (rest : string) :
  has_slash rest = false ->
  glob_session_json (file_path ("session_" +:+ rest)) = true.
Proof.
  intros H. unfold glob_session_json, file_path.
  change (drop_prefix "session_" (("session_" +:+ rest) +:+ ".json"))
    with (Some (rest +:+ ".json")).
  cbv beta iota.
  by rewrite ends_with_json_append, has_slash_append_json, H.
Qed.

Lemma lookup_filter_keep {V} (P : string * V -> Prop)
  `{forall kv, Decision (P kv)} (fs : gmap string V) (k : string) :
  (forall v, P (k, v)) -> filter P fs !! k = fs !! k.
Proof.
  intros HP. destruct (fs !! k) as [v|] eqn:E.
  - apply map_lookup_filter_Some. by split.
  - apply map_lookup_filter_None. by left.
Qed.

Lemma lookup_filter_drop {V} (P : string * V -> Prop)
  `{forall kv, Decision (P kv)} (fs : gmap string V) (k : string) :
  (forall v, ~ P (k, v)) -> filter P fs !! k = None.
Proof.
  intros HP. apply map_lookup_filter_None. right. intros v _. apply HP.
Qed.



(** ** rename_session in the SQLite backend *)

Lemma rename_session_db_unfold (old new : string) (m : MemoryManager) :
  use_db m = true ->
  truthy new = true ->
  strip_is_empty new = false ->
  get_session new m = None ->
  rename_session old new m =
  match update_sessions_id old new (sessions (db m)) with
  | Some tbl =>
      (true,
       let m1 :=
         set_db (mkDatabase tbl
                   (update_messages_id old new (messages_table (db m)))
                   (sqlite_sequence (db m))) m in
       if current_is old m1 then
         set_current_session (with_session_id new <$> current_session m1) m1
       else m1)
  | None => (false, m)
  end.
Proof.
  intros Hdb Ht Hs Hnew. unfold rename_session. rewrite Ht, Hs, Hnew.
  change (negb true || false) with false. cbv iota.
  rewrite bool_decide_eq_false_2 by (intros [? ?]; discriminate).
  rewrite Hdb. by destruct (update_sessions_id old new (sessions (db m))).
Qed.

Lemma insert_by_id_map (f : MessageRow -> MessageRow) (r : MessageRow)
  (l : list MessageRow) :
  (forall x, col_id (f x) = col_id x) ->
  insert_by_id (f r) (map f l) = map f (insert_by_id r l).
Proof.
  intros Hf. induction l as [|x l IH]; [done|]. simpl.
  rewrite !Hf. destruct (col_id r <? col_id x); [done|]. simpl.
  by rewrite IH.
Qed.

Lemma order_by_id_map (f : MessageRow -> MessageRow) (l : list MessageRow) :
  (forall x, col_id (f x) = col_id x) ->
  order_by_id (map f l) = map f (order_by_id l).
Proof.
  intros Hf. unfold order_by_id. induction l as [|x l IH]; [done|].
  simpl. rewrite IH. by apply insert_by_id_map.
Qed.

Lemma filter_renamed (old new : string) (rows : list MessageRow) :
  old <> new ->
  Forall (fun r => col_session_id r <> new) rows ->
  filter (fun r => col_session_id r = new) (update_messages_id old new rows)
  = map (with_col_session_id new)
      (filter (fun r => col_session_id r = old) rows).
Proof.
  intros Hne. unfold update_messages_id.
  induction 1 as [|r rows Hr _ IH]; [done|]. cbn [map].
  rewrite !filter_cons. destruct (decide (col_session_id r = old)) as [E|E].
  - rewrite decide_True by done. cbn [map]. by rewrite IH.
  - rewrite decide_False by done. by rewrite IH.
Qed.

Lemma filter_renamed_other (old new other : string)
  (rows : list MessageRow) :
  other <> old -> other <> new ->
  filter (fun r => col_session_id r = other) (update_messages_id old new rows)
  = filter (fun r => col_session_id r = other) rows.
Proof.
  intros Ho Hn. unfold update_messages_id.
  induction rows as [|r rows IH]; [done|]. cbn [map].
  rewrite !filter_cons. destruct (decide (col_session_id r = old)) as [E|E].
  - rewrite decide_False by (simpl; congruence).
    rewrite decide_False by congruence. exact IH.
  - destruct (decide (col_session_id r = other)); by rewrite IH.
Qed.

Lemma map_row_message_renamed (new : string) (rows : list MessageRow) :
  map row_message (map (with_col_session_id new) rows) = map row_message rows.
Proof. induction rows as [|r rows IH]; [done|]. simpl. by rewrite IH. Qed.

(** X15: in the SQLite backend, renaming a stored session to a non-blank
    id that has neither a session nor message rows succeeds and moves the
    session whole: it then loads under the new id with only its session_id
    changed and all its messages in order, nothing loads under the old id,
    and every other session loads as before. *)
Theorem rename_session_db_moves (old new : string) (row : SessionRow)
  (m : MemoryManager) :
  use_db m = true ->
  truthy new = true ->
  strip_is_empty new = false ->
  sessions (db m) !! old = Some row ->
  sessions (db m) !! new = None ->
  Forall (fun r => col_session_id r <> new) (messages_table (db m)) ->
  fst (rename_session old new m) = true /\
  get_session new (snd (rename_session old new m)) =
    with_session_id new <$> get_session old m /\
  get_session old (snd (rename_session old new m)) = None /\
  (forall other, other <> old -> other <> new ->
     get_session other (snd (rename_session old new m)) =
     get_session other m).
Proof.
  intros Hdb Ht Hs Hold Hnew Hrows.
  assert (Hne : old <> new) by congruence.
  assert (Hg : get_session new m = None).
  { unfold get_session, _get_session_from_db. by rewrite Hdb, Hnew. }
  rewrite (rename_session_db_unfold old new m Hdb Ht Hs Hg).
  unfold update_sessions_id. rewrite Hold, decide_False, Hnew by done.
  cbv zeta. cbn [fst snd]. split; [done|].
  match goal with
  | |- context [if current_is ?i ?x then set_current_session ?c ?x else ?x] =>
      destruct (current_update_keeps_store (current_is i x) c x)
        as (Hu & Hd & _);
      set (m' := if current_is i x then set_current_session c x else x) in *
  end.
  cbn [use_db db set_db] in Hu, Hd.
  unfold get_session. rewrite Hu, Hdb.
  split; [|split].
  - rewrite (get_session_from_db_lookup old m row Hold).
    erewrite get_session_from_db_lookup;
      [|rewrite Hd; simpl; apply lookup_insert_eq].
    unfold select_messages. rewrite Hd. cbn [messages_table].
    rewrite filter_renamed by done.
    rewrite order_by_id_map by done.
    by rewrite map_row_message_renamed.
  - unfold _get_session_from_db. rewrite Hd. simpl.
    rewrite lookup_insert_ne by done. by rewrite lookup_delete_eq.
  - intros other Ho Hn. apply get_session_from_db_ext; rewrite Hd; simpl.
    + rewrite lookup_insert_ne by done. by rewrite lookup_delete_ne.
    + by apply filter_renamed_other.
Qed.

Lemma rename_session_db_moves_witness :
  (map content ∘ messages) <$>
    get_session "s2" (snd (rename_session "s1" "s2" (ex_chat true)))
  = Some ["Document: note.txt"; "hi"; "hello"].
Proof.
  assert (Hrow : exists row, sessions (db (ex_chat true)) !! "s1" = Some row)
    by (vm_compute; eexists; reflexivity).
  destruct Hrow as [row Hrow].
  assert (Hnew : sessions (db (ex_chat true)) !! "s2" = None)
    by (vm_compute; reflexivity).
  assert (Hrows : Forall (fun r => col_session_id r <> "s2")
                    (messages_table (db (ex_chat true)))).
  { vm_compute. repeat (constructor; [discriminate|]). constructor. }
  destruct (rename_session_db_moves "s1" "s2" row (ex_chat true)
              eq_refl eq_refl eq_refl Hrow Hnew Hrows) as (_ & -> & _).
  vm_compute. reflexivity.
Defined.

(** ** Renaming there and back *)

Lemma rename_result_db (old new : string) (row : SessionRow)
  (m : MemoryManager) :
  use_db m = true ->
  truthy new = true ->
  strip_is_empty new = false ->
  sessions (db m) !! old = Some row ->
  sessions (db m) !! new = None ->
  rename_session old new m =
  (true,
   mkMemoryManager (clock m) (ticks m) (config m) true
     (mkDatabase (<[new := row]> (delete old (sessions (db m))))
        (update_messages_id old new (messages_table (db m)))
        (sqlite_sequence (db m)))
     (files m) (rename_current old new (current_session m))).
Proof.
  intros Hdb Ht Hs Hold Hnew.
  assert (Hne : old <> new) by congruence.
  assert (Hg : get_session new m = None).
  { unfold get_session, _get_session_from_db. by rewrite Hdb, Hnew. }
  rewrite (rename_session_db_unfold old new m Hdb Ht Hs Hg).
  unfold update_sessions_id. rewrite Hold, decide_False, Hnew by done.
  cbv zeta. unfold current_is, rename_current, set_db, set_current_session.
  cbn. rewrite Hdb.
  destruct (current_session m) as [c|]; [|done]. cbn.
  by destruct (bool_decide (session_id c = old)).
Qed.

Lemma rename_result_file (old new : string) (data : Session)
  (m : MemoryManager) :
  use_db m = false ->
  truthy new = true ->
  strip_is_empty new = false ->
  files m !! file_path old = Some (SessionJson data) ->
  files m !! file_path new = None ->
  plain_name (file_path new) = true ->
  rename_session old new m =
  (true,
   mkMemoryManager (clock m) (ticks m) (config m) false (db m)
     (<[file_path new := SessionJson (with_session_id new data)]>
        (delete (file_path old) (files m)))
     (rename_current old new (current_session m))).
Proof.
  intros Hdb Ht Hs Hold Hnew Hplain.
  unfold rename_session. rewrite Ht, Hs.
  change (negb true || false) with false. cbv iota.
  assert (Hg : get_session new m = None).
  { unfold get_session, _get_session_from_file. by rewrite Hdb, Hnew. }
  rewrite Hg. rewrite bool_decide_eq_false_2 by (intros [? ?]; discriminate).
  rewrite Hdb, Hold.
  rewrite (proj1 (rename_file_run old new data (files m)
                    ltac:(by eexists) Hplain)).
  unfold current_is, rename_current, set_files, set_current_session.
  cbn. rewrite Hdb.
  destruct (current_session m) as [c|]; [|done]. cbn.
  by destruct (bool_decide (session_id c = old)).
Qed.

Lemma rename_current_back (old new : string) (cur : option Session) :
  old <> new ->
  match cur with
  | Some c => bool_decide (session_id c = new)
  | None => false
  end = false ->
  rename_current new old (rename_current old new cur) = cur.
Proof.
  intros Hne Hc. destruct cur as [c|]; [|done]. unfold rename_current.
  destruct (bool_decide (session_id c = old)) eqn:E.
  - apply bool_decide_eq_true in E. cbn.
    rewrite bool_decide_eq_true_2 by done. destruct c; simpl in *.
    by subst.
  - by rewrite Hc.
Qed.

Lemma update_messages_id_back (old new : string) (rows : list MessageRow) :
  Forall (fun r => col_session_id r <> new) rows ->
  update_messages_id new old (update_messages_id old new rows) = rows.
Proof.
  unfold update_messages_id. induction 1 as [|r rows Hr _ IH]; [done|].
  cbn [map]. rewrite IH. f_equal.
  destruct (decide (col_session_id r = old)) as [E|E].
  - rewrite decide_True by done. destruct r; simpl in *. by subst.
  - by rewrite decide_False.
Qed.

Lemma map_swap_back {V} (a b : string) (x y : V) (t : gmap string V) :
  t !! a = Some x -> t !! b = None ->
  <[a := x]> (delete b (<[b := y]> (delete a t))) = t.
Proof.
  intros Ha Hb. apply map_eq. intros k.
  destruct (decide (a = k)) as [<-|Ha']; [by rewrite lookup_insert_eq|].
  rewrite lookup_insert_ne by done.
  destruct (decide (b = k)) as [<-|Hb']; [by rewrite lookup_delete_eq|].
  rewrite lookup_delete_ne, lookup_insert_ne, lookup_delete_ne by done.
  done.
Qed.

(** X16: renaming a stored session to an unused id and back restores the
    manager exactly - the store, with the session's content and the order
    of its messages, and the current session - and both calls return True,
    in either backend. *)
Theorem rename_session_round_trip (old new : string) (m : MemoryManager) :
  renamable old new m ->
  fst (rename_session old new m) = true /\
  rename_session new old (snd (rename_session old new m)) = (true, m).
Proof.
  intros (Hto & Hso & Htn & Hsn & Hcur & Hst).
  destruct (use_db m) eqn:Hdb.
  - destruct Hst as ([row Hold] & Hnew & Hrows).
    assert (Hne : old <> new) by congruence.
    rewrite (rename_result_db old new row m Hdb Htn Hsn Hold Hnew).
    split; [done|]. cbn [snd].
    erewrite (rename_result_db new old row);
      cbn [clock ticks config use_db db files current_session sessions
           messages_table sqlite_sequence];
      [|done|done|done|apply lookup_insert_eq
       |rewrite lookup_insert_ne by done; apply lookup_delete_eq].
    rewrite map_swap_back by done.
    rewrite update_messages_id_back by done.
    rewrite rename_current_back by done.
    destruct m as [? ? ? ? [? ? ?] ? ?]. simpl in *. by subst.
  - destruct Hst as ([data [Hold Hid]] & Hnew & Hpo & Hpn).
    assert (Hne : old <> new) by congruence.
    assert (Hp : file_path new <> file_path old).
    { intros E. apply file_path_inj in E. congruence. }
    rewrite (rename_result_file old new data m Hdb Htn Hsn Hold Hnew Hpn).
    split; [done|]. cbn [snd].
    erewrite (rename_result_file new old (with_session_id new data));
      cbn [clock ticks config use_db db files current_session sessions
           messages_table sqlite_sequence];
      [|done|done|done|apply lookup_insert_eq
       |rewrite lookup_insert_ne by done; apply lookup_delete_eq|done].
    assert (Hd : with_session_id old (with_session_id new data) = data).
    { destruct data. simpl in *. by subst. }
    rewrite Hd, map_swap_back by done.
    rewrite rename_current_back by done.
    destruct m as [? ? ? ? ? ? ?]. simpl in *. by subst.
Qed.

Lemma rename_session_round_trip_witness :
  rename_session "s2" "s1" (snd (rename_session "s1" "s2" (ex_chat true)))
    = (true, ex_chat true) /\
  rename_session "s2" "s1" (snd (rename_session "s1" "s2" (ex_chat false)))
    = (true, ex_chat false).
Proof.
  split.
  - apply rename_session_round_trip.
    do 5 (split; [vm_compute; reflexivity|]). vm_compute.
    split; [eexists; reflexivity|]. split; [reflexivity|].
    repeat (constructor; [discriminate|]). constructor.
  - apply rename_session_round_trip.
    do 5 (split; [vm_compute; reflexivity|]). vm_compute.
    split; [|by repeat split]. eexists. split; reflexivity.
Defined.

(** ** save_session *)

(** X17: save_session stamps the session with the clock reading and
    stores it.  In the JSON-file backend, when the session file exists or
    can be created, the session then loads back whole, with that
    updated_at.  In the SQLite backend only the session row is
    written: the session loads with the fields given and that updated_at,
    but with the messages of table messages, not those of the object
    saved. *)
Theorem save_session_then_load (s : Session) (m : MemoryManager) :
  let t := isoformat (clock m (ticks m)) in
  (use_db m = false ->
   writable (file_path (session_id s)) (files m) = true ->
   get_session (session_id s) (save_session s m) =
     Some (with_session_updated_at t s)) /\
  (use_db m = true ->
   get_session (session_id s) (save_session s m) =
     Some (with_messages
             (map row_message (select_messages (session_id s) (db m)))
             (with_session_updated_at t s))).
Proof.
  intros t. unfold save_session, datetime_now, get_session.
  cbn [use_db set_ticks]. split; intros Hdb; rewrite Hdb.
  - intros Hw.
    cbn [use_db _save_session_to_file set_files set_ticks]. rewrite Hdb.
    apply get_session_from_file_lookup.
    rewrite save_session_to_file_files by exact Hw.
    apply lookup_insert_eq.
  - cbn [use_db _save_session_to_db set_db set_ticks]. rewrite Hdb.
    erewrite get_session_from_db_lookup; [|cbn; apply lookup_insert_eq].
    reflexivity.
Qed.

Lemma save_session_then_load_witness :
  get_session (session_id ex_session) (save_session ex_session (ex_chat false))
  = Some (with_session_updated_at
            (isoformat (clock (ex_chat false) (ticks (ex_chat false))))
            ex_session).
Proof.
  exact (proj1 (save_session_then_load ex_session (ex_chat false))
           eq_refl eq_refl).
Defined.

(** ** The invariant of table messages *)

Lemma update_messages_id_wf (old new : string) (d : Database) :
  db_wf d ->
  db_wf (mkDatabase (sessions d)
           (update_messages_id old new (messages_table d))
           (sqlite_sequence d)).
Proof.
  intros [Hs Hb]. unfold db_wf, update_messages_id. cbn.
  assert (Hid : forall r : MessageRow,
            col_id (if decide (col_session_id r = old)
                    then with_col_session_id new r else r) = col_id r).
  { intros r. by destruct (decide _). }
  split.
  - clear Hb. induction Hs as [|r l Hl IH Hr]; [constructor|].
    cbn [map]. constructor; [exact IH|].
    rewrite Forall_forall in *. intros y Hy.
    apply list_elem_of_fmap in Hy as (x & -> & Hx).
    rewrite !Hid. by apply Hr.
  - rewrite Forall_forall in *. intros y Hy.
    apply list_elem_of_fmap in Hy as (x & -> & Hx).
    rewrite Hid. by apply Hb.
Qed.

Lemma delete_messages_wf (sid : string) (d : Database) :
  db_wf d -> db_wf (delete_messages sid d).
Proof.
  intros [Hs Hb]. split; cbn.
  - by apply StronglySorted_filter_rows.
  - rewrite Forall_forall in *. intros y Hy.
    apply list_elem_of_filter in Hy as [_ Hy]. by apply Hb.
Qed.

(** X18: the ids of table messages stay strictly ascending and bounded
    by the AUTOINCREMENT sequence under every operation of the manager, so
    that ORDER BY id keeps returning the messages in insertion order. *)
Theorem db_wf_preserved (m : MemoryManager) :
  db_wf (db m) ->
  (forall sid model, db_wf (db (snd (create_session sid model m)))) /\
  (forall s, db_wf (db (save_session s m))) /\
  (forall r c sid md, db_wf (db (snd (add_message r c sid md m)))) /\
  (forall old new, db_wf (db (snd (rename_session old new m)))) /\
  (forall sid, db_wf (db (snd (clear_session_messages sid m)))) /\
  (forall sid, db_wf (db (snd (delete_session sid m)))) /\
  db_wf (db (snd (clear_all m))).
Proof.
  intros Hwf. repeat match goal with |- _ /\ _ => split end.
  - intros [sid|] model; unfold create_session, datetime_now;
      cbn [fst snd use_db set_ticks];
      destruct (use_db m); exact Hwf.
  - intros s. unfold save_session, datetime_now. cbn [use_db set_ticks].
    destruct (use_db m); exact Hwf.
  - intros r c sid md. unfold add_message.
    destruct (negb (truthy_opt (py_or sid (session_id <$> current_session m))));
      [exact Hwf|].
    cbn [snd datetime_now].
    match goal with
    | |- context [if current_is ?i ?x then set_current_session ?cc ?x else ?x]
      => destruct (current_update_keeps_store (current_is i x) cc x)
           as (_ & -> & _)
    end.
    cbn [use_db set_ticks]. destruct (use_db m).
    + unfold _add_message_to_db, datetime_now. cbn.
      by apply (insert_message_wf _ _ _ Hwf).
    + destruct (get_session _ _); exact Hwf.
  - intros old new. unfold rename_session.
    destruct (negb (truthy new) || strip_is_empty new); [exact Hwf|].
    destruct (bool_decide _); [exact Hwf|].
    destruct (use_db m).
    + destruct (update_sessions_id old new (sessions (db m))) as [tbl|];
        [|exact Hwf].
      match goal with
      | |- context [if current_is ?i ?x then set_current_session ?cc ?x
                    else ?x]
        => destruct (current_update_keeps_store (current_is i x) cc x)
             as (_ & Hd & _); cbn [snd]; rewrite Hd
      end.
      cbn [db set_db].
      destruct (update_messages_id_wf old new (db m) Hwf) as [H1 H2].
      by split.
    + destruct (files m !! file_path old) as [[|data]|]; try exact Hwf.
      destruct (run_ops (rename_file_ops old new data) (files m))
        as [fs []]; cbn [snd]; [|exact Hwf].
      match goal with
      | |- context [if current_is ?i ?x then set_current_session ?cc ?x
                    else ?x]
        => destruct (current_update_keeps_store (current_is i x) cc x)
             as (_ & Hd & _); rewrite Hd
      end.
      exact Hwf.
  - intros sid. unfold clear_session_messages. destruct (use_db m).
    + cbn [snd datetime_now].
      match goal with
      | |- context [if current_is ?i ?x then set_current_session ?cc ?x
                    else ?x]
        => destruct (current_update_keeps_store (current_is i x) cc x)
             as (_ & Hd & _); rewrite Hd
      end.
      cbn. by apply (delete_messages_wf sid) in Hwf.
    + destruct (get_session sid m); [|exact Hwf]. cbn [snd].
      match goal with
      | |- context [if current_is ?i ?x then set_current_session ?cc ?x
                    else ?x]
        => destruct (current_update_keeps_store (current_is i x) cc x)
             as (_ & Hd & _); rewrite Hd
      end.
      exact Hwf.
  - intros sid. unfold delete_session. cbn [snd].
    match goal with
    | |- context [if current_is ?i ?x then set_current_session ?cc ?x else ?x]
      => destruct (current_update_keeps_store (current_is i x) cc x)
           as (_ & Hd & _); rewrite Hd
    end.
    destruct (use_db m).
    + cbn. by apply (delete_messages_wf sid) in Hwf.
    + by destruct (files m !! file_path sid).
  - unfold clear_all. cbn [snd]. destruct (use_db m); [|exact Hwf].
    cbn. destruct Hwf as [_ Hb]. split; constructor.
Qed.

Lemma db_wf_preserved_witness :
  db_wf (db (snd (add_message "user" "hi" (Some "s1") None (ex_empty true)))).
Proof.
  assert (H0 : db_wf (db (ex_empty true))) by (split; constructor).
  destruct (db_wf_preserved (ex_empty true) H0) as (_ & _ & H & _).
  exact (H "user" "hi" (Some "s1") None).
Defined.

End MemoryExtra.

(** * Further properties of chromadb_rag.py *)

Module RagExtra.
Import Rag RagSpec RagProofs.

Section Importing.

Variable sha256_hexdigest : string -> string.

Local Abbreviation chunks_to_add := (chunks_to_add sha256_hexdigest).
Local Abbreviation add_documents := (add_documents sha256_hexdigest).
Local Abbreviation add_text := (add_text sha256_hexdigest).

Lemma chunks_to_add_empty_contents (splitter : string -> list string)
  (docs : list DocumentInput) :
  Forall (fun d => doc_content d = "") docs ->
  chunks_to_add splitter docs = [].
Proof.
  unfold Rag.chunks_to_add. induction 1 as [|d docs Hd _ IH]; [done|].
  simpl. rewrite IH. unfold chunks_of_document. by rewrite Hd.
Qed.

(** X19: add_documents adds nothing and returns 0, leaving the index as
    it was, when the list of documents is empty, when no embedding service
    is configured, and when every document has empty content. *)
Theorem add_documents_nothing_to_add (docs : list DocumentInput)
  (rag : ChromaDBRAG) :
  docs = [] \/ embeddings rag = None \/
  Forall (fun d => doc_content d = "") docs ->
  add_documents docs rag = (O, rag).
Proof.
  intros H. unfold Rag.add_documents.
  destruct docs as [|d docs]; [done|].
  destruct (embeddings rag) as [emb|]; [|done].
  destruct H as [H|[H|H]]; [done|done|].
  by rewrite chunks_to_add_empty_contents.
Qed.


(** ** What an import does to the stored records *)

Lemma add_new_grows (recs c : list ChunkRecord) :
  exists added,
    add_new recs c = c ++ added /\
    (length added <= length recs)%nat /\
    Forall (fun r => r ∈ recs /\ chunk_id r ∉ stored_ids c) added.
Proof.
  revert c. induction recs as [|r recs IH]; intros c.
  - exists []. by rewrite app_nil_r.
  - simpl. case_bool_decide as Hin.
    + destruct (IH c) as (added & -> & Hl & Hf). exists added.
      split; [done|]. split; [simpl; lia|].
      eapply Forall_impl; [exact Hf|]. intros x [Hx1 Hx2].
      split; [by apply list_elem_of_further | done].
    + destruct (IH (c ++ [r])) as (added & -> & Hl & Hf).
      exists (r :: added). split; [by rewrite <- app_assoc|].
      split; [simpl; lia|]. constructor.
      * split; [apply list_elem_of_here | done].
      * eapply Forall_impl; [exact Hf|]. intros x [Hx1 Hx2].
        split; [by apply list_elem_of_further|].
        intros Hx. apply Hx2. unfold stored_ids. rewrite map_app.
        apply elem_of_app. by left.
Qed.

Lemma add_individually_steps (emb : Embeddings) (chunks : list Chunk)
  (c : list ChunkRecord) :
  add_individually emb chunks c = fold_left (add_step emb) chunks (O, c).
Proof.
  unfold add_individually. generalize (O, c) as acc.
  induction chunks as [|ch chunks IH]; intros [n c']; [done|].
  cbn [fold_left]. apply IH.
Qed.

Lemma add_step_cases (emb : Embeddings) (n : nat) (c : list ChunkRecord)
  (ch : Chunk) :
  add_step emb (n, c) ch = (n, c) \/
  (add_step emb (n, c) ch = (S n, c) /\ id ch ∈ stored_ids c) \/
  (exists e,
     add_step emb (n, c) ch =
       (S n, c ++ [mkChunkRecord (id ch) (document ch) e (metadata ch)]) /\
     id ch ∉ stored_ids c).
Proof.
  unfold add_step. destruct (embed_query emb (document ch)) as [e|];
    [|by left].
  rewrite collection_add_single. case_bool_decide as Hin.
  - right. left. by split.
  - right. right. exists e. by split.
Qed.

Lemma add_steps_grow (emb : Embeddings) (chunks : list Chunk)
  (c : list ChunkRecord) (n : nat) :
  exists added,
    snd (fold_left (add_step emb) chunks (n, c)) = c ++ added /\
    (n + length added <= fst (fold_left (add_step emb) chunks (n, c)))%nat /\
    (fst (fold_left (add_step emb) chunks (n, c)) <= n + length chunks)%nat /\
    Forall (fun r => chunk_id r ∈ map id chunks /\ chunk_id r ∉ stored_ids c)
      added.
Proof.
  revert c n. induction chunks as [|ch chunks IH]; intros c n.
  - exists []. cbn. rewrite app_nil_r. repeat split; try lia. constructor.
  - cbn [fold_left].
    destruct (add_step_cases emb n c ch) as [->|[[-> Hin]|(e & -> & Hin)]].
    + destruct (IH c n) as (added & H1 & H2 & H3 & H4).
      exists added. split; [exact H1|]. split; [lia|].
      split; [cbn [length]; lia|].
      eapply Forall_impl; [exact H4|]. intros x [Hx1 Hx2].
      split; [by apply list_elem_of_further | done].
    + destruct (IH c (S n)) as (added & H1 & H2 & H3 & H4).
      exists added. split; [exact H1|]. split; [lia|].
      split; [cbn [length]; lia|].
      eapply Forall_impl; [exact H4|]. intros x [Hx1 Hx2].
      split; [by apply list_elem_of_further | done].
    + destruct (IH (c ++ [mkChunkRecord (id ch) (document ch) e
                            (metadata ch)]) (S n))
        as (added & H1 & H2 & H3 & H4).
      exists (mkChunkRecord (id ch) (document ch) e (metadata ch) :: added).
      split; [by rewrite H1, <- app_assoc|].
      split; [cbn [length]; lia|]. split; [cbn [length]; lia|].
      constructor.
      * split; [apply list_elem_of_here | done].
      * eapply Forall_impl; [exact H4|]. intros x [Hx1 Hx2].
        split; [by apply list_elem_of_further|].
        intros Hx. apply Hx2. unfold stored_ids. rewrite map_app.
        apply elem_of_app. by left.
Qed.

(** X20: add_documents only appends: the records stored before are all
    still there, unchanged and in the same order; every record it adds
    carries the id of a chunk of the imported documents that was not stored
    before; and the collection grows by at most the count returned, which
    is at most the number of chunks. *)
Theorem add_documents_only_appends (docs : list DocumentInput)
  (rag : ChromaDBRAG) :
  exists added,
    collection (snd (add_documents docs rag)) = collection rag ++ added /\
    Forall (fun r =>
              chunk_id r ∈ map id (chunks_to_add (text_splitter rag) docs) /\
              chunk_id r ∉ stored_ids (collection rag)) added /\
    (length added <= fst (add_documents docs rag))%nat /\
    (fst (add_documents docs rag) <=
     length (chunks_to_add (text_splitter rag) docs))%nat.
Proof.
  unfold Rag.add_documents.
  destruct docs as [|d docs].
  { exists []. cbn. rewrite app_nil_r. repeat split; try lia. constructor. }
  destruct (embeddings rag) as [emb|];
    [|exists []; cbn; rewrite app_nil_r; repeat split; try lia; constructor].
  set (chunks := chunks_to_add (text_splitter rag) (d :: docs)).
  destruct chunks as [|ch chunks'] eqn:Ec.
  { exists []. cbn. rewrite app_nil_r. repeat split; try lia. constructor. }
  rewrite <- Ec. clear Ec ch chunks'.
  destruct (match embed_documents emb (map document chunks) with
            | Some embs => collection_add (map id chunks) embs
                             (map document chunks) (map metadata chunks)
                             (collection rag)
            | None => None
            end) as [c'|] eqn:E.
  - destruct (embed_documents emb (map document chunks)) as [embs|];
      [|discriminate].
    unfold collection_add in E. case_bool_decide as Hc; [|discriminate].
    injection E as <-. destruct Hc as (_ & He & _).
    destruct (add_new_grows
                (zip_records (map id chunks) embs (map document chunks)
                   (map metadata chunks)) (collection rag))
      as (added & Ha & Hl & Hf).
    exists added. cbn [fst snd collection set_collection].
    split; [exact Ha|]. split; [|split].
    + eapply Forall_impl; [exact Hf|]. intros r [Hr1 Hr2].
      split; [by apply zip_records_elem in Hr1 | done].
    + etrans; [exact Hl|]. clear. generalize (map id chunks) as ids.
      generalize (map document chunks) as ds.
      generalize (map metadata chunks) as ms. revert embs.
      induction embs as [|e embs IH]; intros ms ds ids;
        destruct ids, ds, ms; simpl; try lia.
      specialize (IH ms ds ids). lia.
    + by rewrite length_map.
  - destruct (add_steps_grow emb chunks (collection rag) O)
      as (added & H1 & H2 & H3 & H4).
    rewrite add_individually_steps.
    destruct (fold_left (add_step emb) chunks (O, collection rag)) as [n c'].
    exists added. cbn [fst snd collection set_collection] in *.
    split; [exact H1|]. split; [exact H4|]. split; lia.
Qed.

(** X21: partial failure is tolerated chunk by chunk: after add_documents
    with an embedding service, every chunk whose own embedding succeeds is
    stored in the index under its id (already present or newly added),
    even when the batch call fails or other chunks cannot be embedded. *)
Theorem add_documents_stores_embeddable_chunks (docs : list DocumentInput)
  (rag : ChromaDBRAG) (emb : Embeddings) (ch : Chunk) :
  embeddings rag = Some emb ->
  ch ∈ chunks_to_add (text_splitter rag) docs ->
  is_Some (embed_query emb (document ch)) ->
  id ch ∈ stored_ids (collection (snd (add_documents docs rag))).
Proof.
  intros He Hin Hq.
  destruct (add_documents_result sha256_hexdigest docs rag) as (_ & _ & ->).
  rewrite He. unfold import_into, collection_add.
  set (chunks := chunks_to_add (text_splitter rag) docs) in *.
  destruct (embed_documents emb (map document chunks)) as [embs|];
    [|by apply fold_add_one_covers].
  case_bool_decide as Hc; [|by apply fold_add_one_covers].
  destruct Hc as (_ & H1 & H2 & H3 & _).
  assert (Hids : forall (ids : list string) embs ds ms,
            length embs = length ids -> length ds = length ids ->
            length ms = length ids ->
            map chunk_id (zip_records ids embs ds ms) = ids).
  { clear. induction ids as [|i ids IH]; intros [|e embs] [|d ds] [|mt ms];
      simpl; intros; try done. f_equal. apply IH; lia. }
  specialize (Hids _ _ _ _ H1 H2 H3).
  assert (Hid : id ch ∈ map id chunks) by (by apply list_elem_of_fmap_2).
  rewrite <- Hids in Hid.
  apply list_elem_of_fmap in Hid as (r & -> & Hr).
  by apply add_new_covers.
Qed.

End Importing.

Lemma add_documents_nothing_to_add_witness :
  add_documents ex_sha256 [mkDocumentInput "" (Some "empty.txt") None] ex_rag
  = (O, ex_rag).
Proof.
  apply add_documents_nothing_to_add. right. right.
  by repeat constructor.
Defined.

Lemma add_documents_stores_embeddable_chunks_witness :
  "doc_Grass is green"
  ∈ stored_ids (collection (snd (add_documents ex_sha256 ex_docs ex_rag))).
Proof.
  apply (add_documents_stores_embeddable_chunks ex_sha256 ex_docs ex_rag
           ex_embeddings
           (mkChunk "doc_Grass is green" "Grass is green"
              (<["chunk_index" := MInt 0]>
                 (<["source" := MStr "unknown"]> ∅)))).
  - reflexivity.
  - vm_compute. apply list_elem_of_further, list_elem_of_here.
  - by eexists.
Defined.

(** ** Querying *)

Section Querying.

Variable cosine_distance : Embedding -> Embedding -> Q.
Variable format_percent : Q -> string.

Local Abbreviation nearest := (nearest cosine_distance).
Local Abbreviation query := (query cosine_distance).
Local Abbreviation query_with_context :=
  (query_with_context cosine_distance format_percent).

(** X22: query returns the empty list, and raises nothing, when no
    embedding service is configured, when embedding the query text fails,
    when top_k is 0 and when the collection is empty. *)
Theorem query_nothing_to_search (query_text : string) (top_k : nat)
  (threshold : Q) (rag : ChromaDBRAG) :
  embeddings rag = None \/
  (exists emb, embeddings rag = Some emb /\
               embed_query emb query_text = None) \/
  top_k = O \/ collection rag = [] ->
  query query_text top_k threshold rag = [].
Proof.
  intros H.
  destruct (query_hits cosine_distance query_text top_k threshold rag)
    as [E|(emb & q & He & Hq & E)]; [exact E|].
  rewrite E. destruct H as [H|[(emb' & H1 & H2)|[H|H]]].
  - congruence.
  - congruence.
  - by rewrite H.
  - rewrite H. unfold Rag.nearest. cbn [map foldr]. by rewrite take_nil.
Qed.

(** X23: query invents nothing: every result is a stored chunk - its
    content and metadata are those of a record of the collection, its
    distance is the index distance between the query embedding and that
    record's embedding, and its similarity is one minus that. *)
Theorem query_hits_are_stored (query_text : string) (top_k : nat)
  (threshold : Q) (rag : ChromaDBRAG) (h : Hit) :
  h ∈ query query_text top_k threshold rag ->
  exists emb q r,
    embeddings rag = Some emb /\ embed_query emb query_text = Some q /\
    r ∈ collection rag /\
    hit_content h = chunk_document r /\
    hit_metadata h = chunk_metadata r /\
    hit_distance h = cosine_distance q (chunk_embedding r) /\
    hit_similarity h = (1 - cosine_distance q (chunk_embedding r))%Q.
Proof.
  intros Hin.
  destruct (query_hits cosine_distance query_text top_k threshold rag)
    as [E|(emb & q & He & Hq & E)].
  { rewrite E in Hin. by apply elem_of_nil in Hin. }
  rewrite E in Hin. apply list_elem_of_omap in Hin as (x & Hx & Hh).
  apply subseteq_take in Hx. apply nearest_elem in Hx as [Hr Hd].
  exists emb, q, (fst x). split; [done|]. split; [done|]. split; [done|].
  unfold hit_of in Hh. destruct (Qltb (1 - snd x) threshold); [done|].
  injection Hh as <-. cbn. by rewrite Hd.
Qed.

Lemma hit_of_threshold_mono (t1 t2 : Q) (x : ChunkRecord * Q) (y : Hit) :
  (t1 <= t2)%Q -> hit_of t2 x = Some y -> hit_of t1 x = Some y.
Proof.
  intros Ht. unfold hit_of, Qltb.
  destruct (Qle_bool t2 (1 - snd x)) eqn:E2; [|done]. cbn. intros <-.
  apply Qle_bool_iff in E2.
  assert (E1 : Qle_bool t1 (1 - snd x) = true).
  { apply Qle_bool_iff. by apply Qle_trans with t2. }
  by rewrite E1.
Qed.

Lemma omap_hit_of_sublist (t1 t2 : Q) (hs : list (ChunkRecord * Q)) :
  (t1 <= t2)%Q ->
  omap (hit_of t2) hs `sublist_of` omap (hit_of t1) hs.
Proof.
  intros Ht. induction hs as [|x hs IH]; [constructor|].
  change (omap (hit_of t2) (x :: hs))
    with (match hit_of t2 x with
          | Some y => y :: omap (hit_of t2) hs
          | None => omap (hit_of t2) hs
          end).
  change (omap (hit_of t1) (x :: hs))
    with (match hit_of t1 x with
          | Some y => y :: omap (hit_of t1) hs
          | None => omap (hit_of t1) hs
          end).
  destruct (hit_of t2 x) as [y|] eqn:E2.
  - rewrite (hit_of_threshold_mono t1 t2 x y Ht E2). by constructor.
  - destruct (hit_of t1 x); [by constructor | done].
Qed.

(** X24: raising the threshold only removes results: for thresholds
    t1 <= t2 the results of a query with threshold t2 are a sub-list of its
    results with threshold t1, in the same order. *)
Theorem query_threshold_monotone (query_text : string) (top_k : nat)
  (t1 t2 : Q) (rag : ChromaDBRAG) :
  (t1 <= t2)%Q ->
  query query_text top_k t2 rag `sublist_of` query query_text top_k t1 rag.
Proof.
  intros Ht. unfold Rag.query.
  destruct (embeddings rag) as [emb|]; [|constructor].
  destruct (embed_query emb query_text) as [q|]; [|constructor].
  destruct top_k as [|k]; [constructor|].
  unfold collection_query. cbn [res_documents].
  rewrite !format_hits. by apply omap_hit_of_sublist.
Qed.

Lemma fold_entries_nonempty (l : list (nat * Hit)) (init : string) :
  init <> "" ->
  fold_left
    (fun context '(i, result) =>
       context +:+ context_entry format_percent i result) l init <> "".
Proof.
  revert init. induction l as [|[i r] l IH]; intros init H; [done|].
  cbn [fold_left]. apply IH. by destruct init.
Qed.


End Querying.

Lemma query_nothing_to_search_witness :
  Rag.query ex_distance "sky color" 0 (1 # 2) ex_index = [].
Proof. apply (query_nothing_to_search ex_distance). right. right. by left. Defined.

Lemma query_hits_are_stored_witness :
  exists emb q r,
    embeddings ex_index = Some emb /\ embed_query emb "sky color" = Some q /\
    r ∈ collection ex_index /\
    "Grass is green" = chunk_document r /\
    hit_metadata
      (mkHit "Grass is green" (1 - 5 / 10) (5 / 10)
         (<["chunk_index" := MInt 0]> (<["source" := MStr "unknown"]> ∅)))
    = chunk_metadata r /\
    (5 / 10)%Q = ex_distance q (chunk_embedding r) /\
    (1 - 5 / 10)%Q = (1 - ex_distance q (chunk_embedding r))%Q.
Proof.
  apply (query_hits_are_stored ex_distance "sky color" 2 (4 # 10) ex_index
           (mkHit "Grass is green" (1 - 5 / 10) (5 / 10)
              (<["chunk_index" := MInt 0]>
                 (<["source" := MStr "unknown"]> ∅)))).
  vm_compute. apply list_elem_of_here.
Defined.

Lemma query_threshold_monotone_witness :
  Rag.query ex_distance "sky color" 2 (4 # 10) ex_index
  `sublist_of` Rag.query ex_distance "sky color" 2 (3 # 10) ex_index.
Proof. apply (query_threshold_monotone ex_distance). vm_compute. discriminate. Defined.


End RagExtra.

(** * Further properties of chatbot.py *)

Module ChatbotExtra.
Import Chatbot ChatbotSpec ChatbotProofs.

(** X26: an empty message, or one made of white space only (no-break
    space and next-line included), is refused with ValueError before
    anything else happens: no clock reading, no sleep, no dispatch, and
    [last_request_time] is left as it was. *)
Theorem chat_blank_message_rejected (A : Arith) (message : string)
  (user_name user_persona : option string)
  (history : option (list (string * string))) (rag_context : option string)
  (bot : Chatbot A) :
  truthy message = false \/ strip_is_empty message = true ->
  chat A message user_name user_persona history rag_context bot =
  (ValueError, bot).
Proof.
  intros [H|H]; unfold chat; rewrite H; [done|].
  by rewrite orb_true_r.
Qed.

Lemma chat_blank_message_rejected_witness :
  chat binary64
    (String (ascii_of_nat 160) (String (ascii_of_nat 9) " ")) None None None
    None ex_bot = (ValueError, ex_bot) /\
  chat binary64 "" None None None None ex_bot = (ValueError, ex_bot).
Proof.
  split.
  - apply chat_blank_message_rejected. right. reflexivity.
  - apply chat_blank_message_rejected. left. reflexivity.
Defined.

(** X27: a call whose dispatch fails still counts for the throttle: the
    result is APIError, but the prompt was dispatched and the time recorded
    before the dispatch stays recorded, so the next call is spaced from the
    failed one. *)
Theorem chat_failed_call_counts (A : Arith) (message : string)
  (user_name user_persona : option string)
  (history : option (list (string * string))) (rag_context : option string)
  (bot : Chatbot A) :
  valid_message message ->
  llm_invoke bot
    (build_prompt message user_name user_persona history rag_context) =
    None ->
  let out := chat A message user_name user_persona history rag_context bot in
  fst out = APIError /\
  last_request_time (snd out) = last_request_time (rate_limit A bot) /\
  dispatched (events (snd out)) =
    (dispatched (events bot) ++
     [build_prompt message user_name user_persona history rag_context])%list.
Proof.
  intros Hv Hn out. unfold out. rewrite chat_valid by exact Hv.
  cbn [fst snd last_request_time events]. rewrite Hn.
  split; [done|]. split; [done|].
  unfold dispatched at 1. rewrite omap_app. cbn [omap].
  destruct (rate_limit_keeps bot) as (_ & _ & _ & Hd & _).
  unfold dispatched in Hd. by rewrite Hd.
Qed.

Lemma chat_failed_call_counts_witness :
  let out := chat binary64 "hi" None None None None ex_bot_down in
  fst out = APIError /\
  last_request_time (snd out) = 1700000000.25%float /\
  dispatched (events (snd out)) = ["User's message: hi"].
Proof.
  intros out.
  destruct (chat_failed_call_counts binary64 "hi" None None None None
              ex_bot_down (conj eq_refl eq_refl) eq_refl) as (H1 & H2 & H3).
  split; [exact H1|]. split; [|exact H3].
  fold out in H2. rewrite H2. vm_compute. reflexivity.
Defined.

Lemma document_block_known (history : list (string * string)) :
  document_block
    (filter (fun e => fst e = "document_context" \/ fst e = "user" \/
                      fst e = "assistant") history) =
  document_block history.
Proof.
  unfold document_block. f_equal.
  induction history as [|e history IH]; [done|].
  rewrite !filter_cons.
  destruct (decide (fst e = "document_context")) as [E|E].
  - rewrite decide_True by (by left). rewrite filter_cons.
    rewrite decide_True by done. by rewrite IH.
  - destruct (decide (_ \/ _)); [|done].
    rewrite filter_cons. by rewrite decide_False.
Qed.

Lemma turn_block_known (history : list (string * string)) :
  turn_block
    (filter (fun e => fst e = "document_context" \/ fst e = "user" \/
                      fst e = "assistant") history) =
  turn_block history.
Proof.
  unfold turn_block. f_equal.
  induction history as [|e history IH]; [done|].
  rewrite !filter_cons.
  destruct (decide (fst e = "user" \/ fst e = "assistant")) as [E|E].
  - rewrite decide_True by (by right). rewrite filter_cons.
    rewrite decide_True by done. by rewrite IH.
  - destruct (decide (_ \/ _)); [|done].
    rewrite filter_cons. by rewrite decide_False.
Qed.

(** X28: what the prompt does not depend on.  History entries whose role
    is none of document_context, user and assistant leave no trace in the
    prompt; no history is the same as an empty one; and an empty name,
    persona or retrieved context is the same as none. *)
Theorem prompt_ignores_unknown_roles_and_empty_values (message : string)
  (user_name user_persona : option string) (history : list (string * string))
  (rag_context : option string) :
  build_prompt message user_name user_persona (Some history) rag_context =
    build_prompt message user_name user_persona
      (Some (filter (fun e => fst e = "document_context" \/ fst e = "user" \/
                              fst e = "assistant") history)) rag_context /\
  build_prompt message user_name user_persona None rag_context =
    build_prompt message user_name user_persona (Some []) rag_context /\
  build_prompt message (Some "") user_persona (Some history) rag_context =
    build_prompt message None user_persona (Some history) rag_context /\
  build_prompt message user_name (Some "") (Some history) rag_context =
    build_prompt message user_name None (Some history) rag_context /\
  build_prompt message user_name user_persona (Some history) (Some "") =
    build_prompt message user_name user_persona (Some history) None.
Proof.
  unfold build_prompt. rewrite !prompt_parts_blocks.
  cbn [default from_option id].
  rewrite document_block_known, turn_block_known.
  repeat split; done.
Qed.

End ChatbotExtra.
